(** * Mini OpenStax: the group store and the insight codec of js/groupManager.js

    A shallow embedding of [getGroupId], [setGroupId], [saveReflectionToGroup],
    [loadPeerReflections], [exportInsightPayload] and [importPeerInsight],
    together with the parts of the JavaScript runtime they call
    ([String.prototype.trim], [String.prototype.split], [parseInt],
    [encodeURIComponent], [decodeURIComponent], template literals,
    [localStorage]).  Of js/chatLogic.js it embeds [shareViaWhatsApp],
    [exportMyInsights], [handlePeerImport], [evaluateQuiz] and
    [generateQuizReport], and of js/chatUI.js the handler of the export
    button.

    Conventions of the model.
    - A JavaScript string is the list of its UTF-16 code units, each an [N]
      below 65536.
    - A JavaScript number that holds a lesson index or a clock value is an
      integer [Z]; [NaN] is the [None] of [option Z].  Rendering and parsing
      are exact, as they are for doubles in the safe-integer range.
    - [localStorage] is a pair of finite maps over disjoint sets of keys:
      the slots read and written as plain strings, and the slots whose text
      is the JSON of an array of reflection entries, kept as the array
      itself ([JSON.parse (JSON.stringify a)] is [a] for such arrays).
    - A call that can throw returns a [completion]; [console.error] is
      not modelled. *)

From Stdlib Require Import ZArith NArith Lia List Ascii String Bool.
From stdpp Require Import base option list numbers countable gmap fin_maps.

Open Scope N_scope.

(** ** Strings *)

Abbreviation jsstring := (list N).

(** The code units of an ASCII literal of the source. *)
Definition str (s : string) : jsstring :=
  map N_of_ascii (list_ascii_of_string s).

(** WhiteSpace and LineTerminator code points of ECMAScript, the set that
    [trim] and [parseInt] strip. *)
Definition is_white_space (c : N) : bool :=
  (c =? 9) || (c =? 10) || (c =? 11) || (c =? 12) || (c =? 13) || (c =? 32)
  || (c =? 160) || (c =? 5760) || ((8192 <=? c) && (c <=? 8202))
  || (c =? 8232) || (c =? 8233) || (c =? 8239) || (c =? 8287)
  || (c =? 12288) || (c =? 65279).

Fixpoint trimStart (s : jsstring) : jsstring :=
  match s with
  | [] => []
  | c :: r => if is_white_space c then trimStart r else s
  end.

Definition trimEnd (s : jsstring) : jsstring := rev (trimStart (rev s)).

(** [String.prototype.trim] *)
Definition trim (s : jsstring) : jsstring := trimEnd (trimStart s).

(** [s.split(sep)] for a separator of one code unit, without limit.  The
    result is never the empty array: the empty string splits into [[""]]. *)
Fixpoint split (sep : N) (s : jsstring) : list jsstring :=
  match s with
  | [] => [[]]
  | c :: r =>
      if c =? sep then [] :: split sep r
      else match split sep r with
           | [] => [[c]]
           | p :: ps => (c :: p) :: ps
           end
  end.

(** ** Numbers *)

Definition is_digit (c : N) : bool := (48 <=? c) && (c <=? 57).

(** Decimal digits of [n], least significant first. *)
Fixpoint digits_rev (fuel : nat) (n : N) : jsstring :=
  match fuel with
  | O => []
  | S fuel' =>
      if n <? 10 then [48 + n]
      else (48 + n mod 10) :: digits_rev fuel' (n / 10)
  end.

(** Decimal digits of [n], most significant first; [n] has at most
    [1 + log2 n] of them. *)
Definition digits (n : N) : jsstring :=
  rev (digits_rev (S (N.to_nat (N.log2 n))) n).

(** [Number::toString] on an integer, as template literals apply it: the
    decimal digits in full.  This is what the runtime prints for integers
    below 10^21 in magnitude that a double holds exactly, so for every
    [safe_integer]; from 10^21 on the runtime prints an exponent form,
    which this definition does not give. *)
Definition number_to_string (z : Z) : jsstring :=
  match z with
  | Zneg p => 45 :: digits (Npos p)
  | _ => digits (Z.to_N z)
  end.

Fixpoint take_digits (s : jsstring) : jsstring :=
  match s with
  | [] => []
  | c :: r => if is_digit c then c :: take_digits r else []
  end.

Definition digits_value (ds : jsstring) : N :=
  fold_left (fun acc d => 10 * acc + (d - 48)) ds 0.

(** [parseInt(s, 10)]: leading white space is skipped, then an optional
    sign, then the longest run of decimal digits; what follows is ignored.
    No digit at all gives [NaN].  The result is the exact value of the
    digit run.  Whether it is [NaN] is as in the runtime for every string;
    the value is the runtime's whenever it is a [safe_integer], and beyond
    that the runtime rounds to a double. *)
Definition parseInt (s : jsstring) : option Z :=
  let s1 := trimStart s in
  let '(negative, s2) :=
    match s1 with
    | c :: r =>
        if c =? 45 then (true, r)
        else if c =? 43 then (false, r)
        else (false, s1)
    | [] => (false, s1)
    end in
  match take_digits s2 with
  | [] => None
  | ds => Some (if negative : bool then (- Z.of_N (digits_value ds))%Z
                else Z.of_N (digits_value ds))
  end.

(** ** Completions *)

Inductive error := URIError | TypeError.

(** The outcome of a call of the runtime: a value, or a thrown error. *)
Inductive completion (A : Type) : Type :=
| Normal (a : A)
| Throw (e : error).
Arguments Normal {A} a.
Arguments Throw {A} e.

Definition cmap {A B : Type} (f : A -> B) (c : completion A) : completion B :=
  match c with
  | Normal a => Normal (f a)
  | Throw e => Throw e
  end.

Definition cbind {A B : Type} (c : completion A) (k : A -> completion B)
  : completion B :=
  match c with
  | Normal a => k a
  | Throw e => Throw e
  end.

(** ** URI component coding *)

(** uriUnescaped: letters, decimal digits and the marks [-_.!~*'()]. *)
Definition is_unescaped (c : N) : bool :=
  ((65 <=? c) && (c <=? 90)) || ((97 <=? c) && (c <=? 122))
  || ((48 <=? c) && (c <=? 57))
  || (c =? 45) || (c =? 95) || (c =? 46) || (c =? 33) || (c =? 126)
  || (c =? 42) || (c =? 39) || (c =? 40) || (c =? 41).

Definition is_lead_surrogate (c : N) : bool := (55296 <=? c) && (c <=? 56319).
Definition is_trail_surrogate (c : N) : bool := (56320 <=? c) && (c <=? 57343).

(** UTF16SurrogatePairToCodePoint *)
Definition surrogate_pair_to_code_point (lead trail : N) : N :=
  (lead - 55296) * 1024 + (trail - 56320) + 65536.

(** UTF16EncodeCodePoint *)
Definition utf16_encode_code_point (cp : N) : jsstring :=
  if cp <? 65536 then [cp]
  else [55296 + (cp - 65536) / 1024; 56320 + (cp - 65536) mod 1024].

(** The octets of the UTF-8 form of a code point. *)
Definition utf8_octets (cp : N) : list N :=
  if cp <? 128 then [cp]
  else if cp <? 2048 then [192 + cp / 64; 128 + cp mod 64]
  else if cp <? 65536 then
    [224 + cp / 4096; 128 + (cp / 64) mod 64; 128 + cp mod 64]
  else
    [240 + cp / 262144; 128 + (cp / 4096) mod 64; 128 + (cp / 64) mod 64;
     128 + cp mod 64].

Definition hex_digits : jsstring := str "0123456789ABCDEF".

Definition hex_digit (d : N) : N := nth (N.to_nat d) hex_digits 48.

(** An octet as the escape [%XX], upper-case. *)
Definition pct_octet (b : N) : jsstring :=
  [37; hex_digit (b / 16); hex_digit (b mod 16)].

Definition pct_octets (bs : list N) : jsstring := concat (map pct_octet bs).

(** [encodeURIComponent]: a code unit of uriUnescaped stands for itself,
    any other code point becomes the escapes of its UTF-8 octets, and an
    unpaired surrogate throws a URIError. *)
Fixpoint encodeURIComponent (s : jsstring) : completion jsstring :=
  match s with
  | [] => Normal []
  | c :: r =>
      if is_unescaped c then cmap (cons c) (encodeURIComponent r)
      else if is_lead_surrogate c then
        match r with
        | d :: r' =>
            if is_trail_surrogate d then
              cmap (app (pct_octets (utf8_octets (surrogate_pair_to_code_point c d))))
                   (encodeURIComponent r')
            else Throw URIError
        | [] => Throw URIError
        end
      else if is_trail_surrogate c then Throw URIError
      else cmap (app (pct_octets (utf8_octets c))) (encodeURIComponent r)
  end.

Definition hex_value (c : N) : option N :=
  if (48 <=? c) && (c <=? 57) then Some (c - 48)
  else if (65 <=? c) && (c <=? 70) then Some (c - 55)
  else if (97 <=? c) && (c <=? 102) then Some (c - 87)
  else None.

(** What [decodeURIComponent] reads: a code unit that stands for itself, or
    the octet of an escape. *)
Inductive token := Lit (c : N) | Oct (b : N).

(** Every [%] must start an escape [%XX] of two hexadecimal digits. *)
Fixpoint pct_tokens (s : jsstring) : completion (list token) :=
  match s with
  | [] => Normal []
  | c :: r =>
      if c =? 37 then
        match r with
        | h1 :: h2 :: r' =>
            match hex_value h1, hex_value h2 with
            | Some a, Some b => cmap (cons (Oct (16 * a + b))) (pct_tokens r')
            | _, _ => Throw URIError
            end
        | _ => Throw URIError
        end
      else cmap (cons (Lit c)) (pct_tokens r)
  end.

Definition is_continuation (b : N) : bool := (128 <=? b) && (b <=? 191).

(** The escapes are read as UTF-8: an octet below 128 is a code unit; a
    leading octet announces one to three continuation octets, which must
    follow as escapes; the sequence must be the UTF-8 form of a code point
    (not overlong, no surrogate, at most 0x10FFFF). *)
Fixpoint decode_tokens (ts : list token) : completion jsstring :=
  match ts with
  | [] => Normal []
  | Lit c :: r => cmap (cons c) (decode_tokens r)
  | Oct b :: r =>
      if b <? 128 then cmap (cons b) (decode_tokens r)
      else if b <? 192 then Throw URIError
      else if b <? 224 then
        match r with
        | Oct b1 :: r1 =>
            let cp := (b - 192) * 64 + (b1 - 128) in
            if is_continuation b1 && (128 <=? cp)
            then cmap (app (utf16_encode_code_point cp)) (decode_tokens r1)
            else Throw URIError
        | _ => Throw URIError
        end
      else if b <? 240 then
        match r with
        | Oct b1 :: Oct b2 :: r2 =>
            let cp := (b - 224) * 4096 + (b1 - 128) * 64 + (b2 - 128) in
            if is_continuation b1 && is_continuation b2 && (2048 <=? cp)
               && negb ((55296 <=? cp) && (cp <=? 57343))
            then cmap (app (utf16_encode_code_point cp)) (decode_tokens r2)
            else Throw URIError
        | _ => Throw URIError
        end
      else if b <? 248 then
        match r with
        | Oct b1 :: Oct b2 :: Oct b3 :: r3 =>
            let cp := (b - 240) * 262144 + (b1 - 128) * 4096
                      + (b2 - 128) * 64 + (b3 - 128) in
            if is_continuation b1 && is_continuation b2 && is_continuation b3
               && (65536 <=? cp) && (cp <=? 1114111)
            then cmap (app (utf16_encode_code_point cp)) (decode_tokens r3)
            else Throw URIError
        | _ => Throw URIError
        end
      else Throw URIError
  end.

(** [decodeURIComponent] *)
Definition decodeURIComponent (s : jsstring) : completion jsstring :=
  cbind (pct_tokens s) decode_tokens.

(** [String.prototype.isWellFormed]: no unpaired surrogate. *)
Fixpoint isWellFormed (s : jsstring) : bool :=
  match s with
  | [] => true
  | c :: r =>
      if is_lead_surrogate c then
        match r with
        | d :: r' => is_trail_surrogate d && isWellFormed r'
        | [] => false
        end
      else negb (is_trail_surrogate c) && (c <? 65536) && isWellFormed r
  end.

(** ** Values and local storage *)

(** The values a caller can pass where the code tests [typeof]. *)
Inductive js_value :=
| JUndefined
| JNull
| JBoolean (b : bool)
| JNumber (z : Z)
| JString (s : jsstring).

(** [{ text, timestamp, student, mastery }]; [mastery] is absent on the
    entries that [saveReflectionToGroup] writes. *)
Record ReflectionEntry := {
  text : jsstring;
  timestamp : Z;
  student : jsstring;
  mastery : option bool
}.

Record Storage := {
  strings : gmap jsstring jsstring;
  arrays : gmap jsstring (list ReflectionEntry)
}.

Definition empty_storage : Storage := {| strings := ∅; arrays := ∅ |}.

(** [localStorage.getItem(key)]; [None] is [null]. *)
Definition getItem (st : Storage) (key : jsstring) : option jsstring :=
  strings st !! key.

(** [localStorage.setItem(key, value)] *)
Definition setItem (st : Storage) (key value : jsstring) : Storage :=
  {| strings := <[key := value]> (strings st); arrays := arrays st |}.

(** [JSON.parse(localStorage.getItem(key) || '[]')] *)
Definition getArray (st : Storage) (key : jsstring) : list ReflectionEntry :=
  default [] (arrays st !! key).

(** [localStorage.setItem(key, JSON.stringify(value))] *)
Definition setArray (st : Storage) (key : jsstring)
  (value : list ReflectionEntry) : Storage :=
  {| strings := strings st; arrays := <[key := value]> (arrays st) |}.

(** Truthiness of a string: the empty string is falsy. *)
Definition truthy (s : jsstring) : bool :=
  match s with
  | [] => false
  | _ :: _ => true
  end.

(** A [string | null] inside a template literal. *)
Definition template (o : option jsstring) : jsstring :=
  match o with
  | Some s => s
  | None => str "null"
  end.

(** [a === b] on strings. *)
Definition str_eqb (a b : jsstring) : bool := bool_decide (a = b).

(** ** js/groupManager.js *)

Definition GROUP_KEY : jsstring := str "miniopenstax_group".
Definition REFLECTIONS_KEY_PREFIX : jsstring := str "group_reflections_".
Definition STUDENT_NAME_KEY : jsstring := str "student_name".

Definition getGroupId (st : Storage) : option jsstring := getItem st GROUP_KEY.

Definition setGroupId (st : Storage) (name : js_value) : Storage :=
  match name with
  | JString s => if truthy (trim s) then setItem st GROUP_KEY (trim s) else st
  | _ => st
  end.

(** The key [`${REFLECTIONS_KEY_PREFIX}${groupId}_${chapter}`] *)
Definition reflections_key (groupId : jsstring) (chapter : Z) : jsstring :=
  REFLECTIONS_KEY_PREFIX ++ groupId ++ str "_" ++ number_to_string chapter.

(** [now] is what [Date.now()] returns during the call; the argument
    [text'] is [None] when the caller passes [null] or [undefined]. *)
Definition saveReflectionToGroup (st : Storage) (now : Z) (chapter : Z)
  (text' : option jsstring) : Storage :=
  let groupId := getGroupId st in
  let studentName :=
    match getItem st STUDENT_NAME_KEY with
    | Some n => if truthy n then n else str "Anonymous"
    | None => str "Anonymous"
    end in
  match groupId, text' with
  | Some g, Some t =>
      if negb (truthy g) || negb (truthy (trim t)) then st
      else
        let key := reflections_key g chapter in
        let existing := getArray st key in
        let alreadyExists :=
          existsb (fun item => str_eqb item.(student) studentName
                               && str_eqb item.(text) (trim t)) existing in
        if negb alreadyExists then
          setArray st key
            (existing ++ [{| text := trim t; timestamp := now;
                             student := studentName; mastery := None |}])
        else st
  | _, _ => st
  end.

Definition loadPeerReflections (st : Storage) (chapter : Z)
  : list ReflectionEntry :=
  let groupId := getGroupId st in
  let myName := getItem st STUDENT_NAME_KEY in
  match groupId with
  | Some g =>
      if negb (truthy g) then []
      else
        let key := reflections_key g chapter in
        let allReflections := getArray st key in
        List.filter (fun reflection =>
                       negb (bool_decide (Some reflection.(student) = myName)))
                    allReflections
  | None => []
  end.

(** The key [`reflection_${chapter}`] of the authoring draft. *)
Definition draft_key (chapter : Z) : jsstring :=
  str "reflection_" ++ number_to_string chapter.

Definition bar : jsstring := str "|".

(** [now] is what [Date.now()] returns during the call.  [Normal None] is
    the [null] of incomplete data; the call throws when
    [encodeURIComponent] does. *)
Definition exportInsightPayload (st : Storage) (now : Z) (chapter : Z)
  (mastery_arg : bool) : completion (option jsstring) :=
  let groupId := getGroupId st in
  let studentName := getItem st STUDENT_NAME_KEY in
  let reflection := getItem st (draft_key chapter) in
  match groupId, studentName, reflection with
  | Some g, Some n, Some r =>
      if negb (truthy g) || negb (truthy n) || negb (truthy r) then Normal None
      else
        cbind (encodeURIComponent (trim r)) (fun cleanText =>
        let masteryFlag := if mastery_arg then str "M" else str "N" in
        Normal (Some (g ++ bar ++ number_to_string chapter ++ bar
                      ++ number_to_string now ++ bar ++ cleanText ++ bar
                      ++ n ++ bar ++ masteryFlag)))
  | _, _, _ => Normal None
  end.

Record ImportResult := { success : bool; message : jsstring }.

Definition failure (m : jsstring) : ImportResult :=
  {| success := false; message := m |}.

(** Code that reads and writes the store and can throw. *)
Definition Js (A : Type) : Type := Storage -> Storage * completion A.

Definition ret {A : Type} (a : A) : Js A := fun st => (st, Normal a).

Definition bind {A B : Type} (m : Js A) (k : A -> Js B) : Js B :=
  fun st =>
    match m st with
    | (st', Normal a) => k a st'
    | (st', Throw e) => (st', Throw e)
    end.

Definition lift {A : Type} (c : completion A) : Js A := fun st => (st, c).

Definition read {A : Type} (f : Storage -> A) : Js A :=
  fun st => (st, Normal (f st)).

Definition write (f : Storage -> Storage) : Js unit :=
  fun st => (f st, Normal tt).

(** [try { return body } catch (error) { return handler }]; the handler of
    the source only logs to the console and returns a value. *)
Definition try_catch {A : Type} (body : Js A) (handler : error -> A)
  : Storage -> Storage * A :=
  fun st =>
    match body st with
    | (st', Normal a) => (st', a)
    | (st', Throw e) => (st', handler e)
    end.

Notation "'do' x <- m ; k" := (bind m (fun x => k))
  (at level 10, x name, m at level 100, k at level 200).

Definition dquote : jsstring := [34].

(** [`Insight is for group "${importGroupId}", but you're in "${currentGroup}".`] *)
Definition group_mismatch_message (importGroupId : jsstring)
  (currentGroup : option jsstring) : jsstring :=
  str "Insight is for group " ++ dquote ++ importGroupId ++ dquote
  ++ str ", but you're in " ++ dquote ++ template currentGroup ++ dquote
  ++ str ".".

(** [`This insight is from Lesson ${chapter + 1}, but you're on Lesson ${currentChapter + 1}.`];
    the sums and their digits are the runtime's for lessons that are
    [safe_integer]. *)
Definition lesson_mismatch_message (chapter currentChapter : Z) : jsstring :=
  str "This insight is from Lesson " ++ number_to_string (chapter + 1)
  ++ str ", but you're on Lesson " ++ number_to_string (currentChapter + 1)
  ++ str ".".

(** The payload is split at [|], code unit 124.  The result is the store
    after the call and the object returned. *)
Definition importPeerInsight (st : Storage) (payload : jsstring)
  (currentChapter : Z) : Storage * ImportResult :=
  try_catch
    (let parts := split 124 payload in
     match parts with
     | importGroupId :: chapterStr :: timestampStr :: encodedText
       :: studentName :: masteryFlag :: _ =>
         match parseInt chapterStr, parseInt timestampStr with
         | Some chapter, Some timestamp =>
             do currentGroup <- read getGroupId;
             if negb (bool_decide (Some importGroupId = currentGroup)) then
               ret (failure (group_mismatch_message importGroupId currentGroup))
             else if negb (chapter =? currentChapter)%Z then
               ret (failure (lesson_mismatch_message chapter currentChapter))
             else
               do text' <- lift (decodeURIComponent encodedText);
               if negb (truthy (trim text')) then
                 ret (failure (str "Empty reflection text."))
               else
                 let key := reflections_key importGroupId chapter in
                 do existing <- read (fun s => getArray s key);
                 let exists_ :=
                   existsb (fun r => str_eqb r.(student) studentName
                                     && str_eqb r.(text) text') existing in
                 if negb exists_ then
                   do _u <- write (fun s =>
                          setArray s key
                            (existing ++ [{| text := text';
                                             timestamp := timestamp;
                                             student := studentName;
                                             mastery := Some (str_eqb masteryFlag (str "M")) |}]));
                   ret {| success := true;
                          message := str "Peer insight added successfully!" |}
                 else
                   ret (failure (str "Already imported this insight."))
         | _, _ => ret (failure (str "Invalid timestamp or chapter."))
         end
     | _ => ret (failure (str "Invalid format. Paste the full message."))
     end)
    (fun _ => failure (str "Failed to parse. Share via WhatsApp exactly as sent."))
    st.

(** ** Sessions *)

(** What a session does to the store: the calls of js/groupManager.js, and
    the two writes of the UI controller to the slots those calls read
    ([localStorage.setItem(STUDENT_NAME_KEY, name)] and
    [localStorage.setItem(`reflection_${currentChapter}`, text)]). *)
Inductive operation :=
| OpSetGroupId (name : js_value)
| OpSaveReflection (now chapter : Z) (text' : option jsstring)
| OpLoadPeerReflections (chapter : Z)
| OpExportInsight (now chapter : Z) (mastery' : bool)
| OpImportPeerInsight (payload : jsstring) (currentChapter : Z)
| OpStoreName (name : jsstring)
| OpStoreDraft (chapter : Z) (text' : jsstring).

Definition step (st : Storage) (o : operation) : Storage :=
  match o with
  | OpSetGroupId name => setGroupId st name
  | OpSaveReflection now chapter t => saveReflectionToGroup st now chapter t
  | OpLoadPeerReflections _ => st
  | OpExportInsight _ _ _ => st
  | OpImportPeerInsight payload currentChapter =>
      fst (importPeerInsight st payload currentChapter)
  | OpStoreName name => setItem st STUDENT_NAME_KEY name
  | OpStoreDraft chapter t => setItem st (draft_key chapter) t
  end.

Definition run (st : Storage) (ops : list operation) : Storage :=
  fold_left step ops st.

(** ** Invariants of the data model *)

(** The dedup key of an entry. *)
Definition entry_id (e : ReflectionEntry) : jsstring * jsstring :=
  (e.(student), e.(text)).

Definition bucket_ok (es : list ReflectionEntry) : Prop :=
  NoDup (map entry_id es).

Definition buckets_ok (st : Storage) : Prop :=
  forall key es, arrays st !! key = Some es -> bucket_ok es.

(** The active GroupId is absent, or non-empty and trimmed. *)
Definition group_ok (st : Storage) : Prop :=
  match getGroupId st with
  | None => True
  | Some g => g <> [] /\ trim g = g
  end.

(** No stored text is empty or made of white space only. *)
Definition texts_not_blank (st : Storage) : Prop :=
  forall key es e, arrays st !! key = Some es -> e ∈ es -> trim e.(text) <> [].

(** The author [saveReflectionToGroup] records. *)
Definition author (st : Storage) : jsstring :=
  match getItem st STUDENT_NAME_KEY with
  | Some n => if truthy n then n else str "Anonymous"
  | None => str "Anonymous"
  end.

(** The escapes [encodeURIComponent] writes for a string, as tokens. *)
Fixpoint encoded_tokens (s : jsstring) : list token :=
  match s with
  | [] => []
  | c :: r =>
      if is_unescaped c then Lit c :: encoded_tokens r
      else if is_lead_surrogate c then
        match r with
        | d :: r' =>
            map Oct (utf8_octets (surrogate_pair_to_code_point c d))
            ++ encoded_tokens r'
        | [] => []
        end
      else map Oct (utf8_octets c) ++ encoded_tokens r
  end.

(** ** Sample stores *)

Definition group_8B : Storage := setGroupId empty_storage (JString (str "8B")).

Definition ama_device : Storage :=
  run empty_storage
    [OpSetGroupId (JString (str " 8B ")); OpStoreName (str "Ama");
     OpStoreDraft 3 (str "Hello, it's great! ")].

Definition kofi_device : Storage :=
  run empty_storage
    [OpSetGroupId (JString (str "8B")); OpStoreName (str "Kofi")].


(** The sixth field of an exported payload. *)
Definition mastery_flag (m : bool) : jsstring := if m then str "M" else str "N".

(** ** js/chatLogic.js: sharing *)

Definition WHATSAPP_NUMBER : jsstring := str "233257320201".

(** What a page holds besides the store: the texts passed to [alert] and
    the URLs passed to [window.open], oldest first. *)
Record Page := {
  storage : Storage;
  alerts : list jsstring;
  windows : list jsstring
}.

Definition page_of (st : Storage) : Page :=
  {| storage := st; alerts := []; windows := [] |}.

(** [alert(text)] *)
Definition alert (pg : Page) (m : jsstring) : Page :=
  {| storage := storage pg; alerts := alerts pg ++ [m]; windows := windows pg |}.

(** [window.open(url, '_blank')] *)
Definition window_open (pg : Page) (url : jsstring) : Page :=
  {| storage := storage pg; alerts := alerts pg; windows := windows pg ++ [url] |}.

(** The em dash of the banner, U+2014. *)
Definition em_dash : jsstring := [8212].

Definition two_newlines : jsstring := [10; 10].

(** [`https://wa.me/${WHATSAPP_NUMBER}?text=${encodeURIComponent(message)}`],
    opened in a new window.  A throw of [encodeURIComponent] comes before
    the window is opened. *)
Definition shareViaWhatsApp (pg : Page) (message' : jsstring) : completion Page :=
  cbind (encodeURIComponent message') (fun encoded =>
  let url := str "https://wa.me/" ++ WHATSAPP_NUMBER ++ str "?text=" ++ encoded in
  Normal (window_open pg url)).

(** The banner line [*Mini OpenStax — Group Insight*]. *)
Definition BANNER : jsstring :=
  str "*Mini OpenStax " ++ em_dash ++ str " Group Insight*".

(** [`*Mini OpenStax — Group Insight*\n\n${payload}\n\n(Share this with your group!)`] *)
Definition insight_message (payload : jsstring) : jsstring :=
  BANNER ++ two_newlines ++ payload ++ two_newlines
  ++ str "(Share this with your group!)".

Definition exportMyInsights (pg : Page) (now : Z) (currentChapter : Z)
  (mastery_arg : bool) : completion Page :=
  cbind (exportInsightPayload (storage pg) now currentChapter mastery_arg)
    (fun payload =>
       match payload with
       | Some p =>
           if negb (truthy p) then
             Normal (alert pg (str "Join a group and complete your reflection first."))
           else shareViaWhatsApp pg (insight_message p)
       | None =>
           Normal (alert pg (str "Join a group and complete your reflection first."))
       end).

(** [p] at the start of [s]: what follows it. *)
Fixpoint strip_prefix (p s : jsstring) : option jsstring :=
  match p, s with
  | [], _ => Some s
  | a :: p', b :: s' => if a =? b then strip_prefix p' s' else None
  | _ :: _, [] => None
  end.

(** The greedy [[^\n]*]. *)
Fixpoint line_of (s : jsstring) : jsstring :=
  match s with
  | [] => []
  | c :: r => if c =? 10 then [] else c :: line_of r
  end.

(** [\n\n([^\n]+)] matched at the start of [r]: the captured group. *)
Definition capture_here (r : jsstring) : option jsstring :=
  match r with
  | a :: b :: c :: r' =>
      if (a =? 10) && (b =? 10) && negb (c =? 10) then Some (c :: line_of r')
      else None
  | _ => None
  end.

(** The rest of the pattern, [\s*\n\n([^\n]+)], matched at the start of
    [r].  The greedy star first takes one more white-space code unit and
    tries the rest of the pattern there, and on failure gives the code unit
    back and tries here. *)
Fixpoint match_after_banner (r : jsstring) : option jsstring :=
  match r with
  | c :: r' =>
      if is_white_space c then
        match match_after_banner r' with
        | Some captured => Some captured
        | None => capture_here r
        end
      else capture_here r
  | [] => capture_here r
  end.

(** The whole pattern matched at the start of [s]. *)
Definition match_here (s : jsstring) : option jsstring :=
  match strip_prefix BANNER s with
  | Some r => match_after_banner r
  | None => None
  end.

(** [rawText.match(/\*Mini OpenStax — Group Insight\*\s*\n\n([^\n]+)/)]:
    the first group of the leftmost match, [None] for [null]. *)
Fixpoint banner_match (rawText : jsstring) : option jsstring :=
  match match_here rawText with
  | Some captured => Some captured
  | None =>
      match rawText with
      | [] => None
      | _ :: r => banner_match r
      end
  end.

(** Whether [p] occurs in [s]. *)
Fixpoint contains (p s : jsstring) : bool :=
  match strip_prefix p s with
  | Some _ => true
  | None =>
      match s with
      | [] => false
      | _ :: r => contains p r
      end
  end.

(** The result is the page after the call and the value returned, [None]
    for [undefined]. *)
Definition handlePeerImport (pg : Page) (rawText : jsstring)
  (currentChapter : Z) : Page * option bool :=
  let payload :=
    match banner_match rawText with
    | Some captured => captured
    | None => trim rawText
    end in
  if negb (truthy payload) then
    (alert pg (str "Paste the full message received via WhatsApp."), None)
  else
    let '(st', result) := importPeerInsight (storage pg) payload currentChapter in
    (alert {| storage := st'; alerts := alerts pg; windows := windows pg |}
           (message result),
     Some (success result)).

(** ** js/chatLogic.js: the quiz *)

#[global] Instance js_value_eq_dec : EqDecision js_value.
Proof. solve_decision. Defined.

(** [a === b] on the values of [js_value]. *)
Definition strict_eqb (a b : js_value) : bool := bool_decide (a = b).

(** ToString, which is also ToPropertyKey, on the values of [js_value]. *)
Definition ToString (v : js_value) : jsstring :=
  match v with
  | JUndefined => str "undefined"
  | JNull => str "null"
  | JBoolean true => str "true"
  | JBoolean false => str "false"
  | JNumber z => number_to_string z
  | JString s => s
  end.

(** [{ id, text }] *)
Record QuizOption := { option_id : js_value; option_text : jsstring }.

(** [{ id, prompt, options }] *)
Record AssessmentItem := {
  item_id : js_value;
  prompt : jsstring;
  options : list QuizOption
}.

(** [{ id, prompt, answer }] *)
Record CorrectEntry := {
  correct_id : js_value;
  correct_prompt : jsstring;
  answer : jsstring
}.

(** [{ id, prompt, userAnswer, correctAnswer }] *)
Record IncorrectEntry := {
  incorrect_id : js_value;
  incorrect_prompt : jsstring;
  userAnswer : jsstring;
  correctAnswer : jsstring
}.

(** [{ score, correctList, incorrectList, mastery }] *)
Record QuizResults := {
  score : Z;
  correctList : list CorrectEntry;
  incorrectList : list IncorrectEntry;
  quiz_mastery : bool
}.

(** [answers[i]]: [undefined] outside the array. *)
Definition element (answers : list js_value) (i : nat) : js_value :=
  nth i answers JUndefined.

(** [correctMap[key]] on an answer key that has own properties only:
    [undefined] for a missing key. *)
Definition property (correctMap : gmap jsstring js_value) (key : js_value)
  : js_value :=
  default JUndefined (correctMap !! ToString key).

(** [options.find(o => o.id === target)] *)
Definition find_option (target : js_value) (opts : list QuizOption)
  : option QuizOption :=
  List.find (fun o => strict_eqb o.(option_id) target) opts.

(** [opt.text], a TypeError when [opt] is [undefined]. *)
Definition text_of (opt : option QuizOption) : completion jsstring :=
  match opt with
  | Some o => Normal o.(option_text)
  | None => Throw TypeError
  end.

(** The callback of [assessmentItems.forEach], on the counter and the two
    lists. *)
Definition evaluate_item (answers : list js_value)
  (correctMap : gmap jsstring js_value)
  (acc : Z * list CorrectEntry * list IncorrectEntry)
  (item : AssessmentItem) (i : nat)
  : completion (Z * list CorrectEntry * list IncorrectEntry) :=
  let '(correctCount, correctList', incorrectList') := acc in
  let userAnswer' := element answers i in
  let correctId := property correctMap item.(item_id) in
  let correctOpt := find_option correctId item.(options) in
  let isCorrect := strict_eqb userAnswer' correctId in
  if isCorrect then
    cbind (text_of correctOpt) (fun answer' =>
    Normal (correctCount + 1,
            correctList' ++ [{| correct_id := item.(item_id);
                                correct_prompt := item.(prompt);
                                answer := answer' |}],
            incorrectList')%Z)
  else
    let userOpt := find_option userAnswer' item.(options) in
    let shown :=
      match userOpt with
      | Some o => if truthy o.(option_text) then o.(option_text) else em_dash
      | None => em_dash
      end in
    cbind (text_of correctOpt) (fun correctAnswer' =>
    Normal (correctCount,
            correctList',
            incorrectList' ++ [{| incorrect_id := item.(item_id);
                                  incorrect_prompt := item.(prompt);
                                  userAnswer := shown;
                                  correctAnswer := correctAnswer' |}])).

(** [forEach] from index [i] on. *)
Fixpoint evaluate_items (answers : list js_value)
  (correctMap : gmap jsstring js_value) (items : list AssessmentItem) (i : nat)
  (acc : Z * list CorrectEntry * list IncorrectEntry)
  : completion (Z * list CorrectEntry * list IncorrectEntry) :=
  match items with
  | [] => Normal acc
  | item :: rest =>
      cbind (evaluate_item answers correctMap acc item i)
            (evaluate_items answers correctMap rest (S i))
  end.

Definition evaluateQuiz (answers : list js_value)
  (correctMap : gmap jsstring js_value) (assessmentItems : list AssessmentItem)
  : completion QuizResults :=
  cbind (evaluate_items answers correctMap assessmentItems 0%nat (0%Z, [], []))
    (fun '(correctCount, correctList', incorrectList') =>
       let score' := correctCount in
       let mastery' := (15 <=? score')%Z in
       Normal {| score := score'; correctList := correctList';
                 incorrectList := incorrectList'; quiz_mastery := mastery' |}).

(** The item is answered as the key says. *)
Definition answered_right (answers : list js_value)
  (correctMap : gmap jsstring js_value) (i : nat) (item : AssessmentItem) : bool :=
  strict_eqb (element answers i) (property correctMap item.(item_id)).

(** The key's answer for the item is one of its options. *)
Definition key_resolves (correctMap : gmap jsstring js_value)
  (item : AssessmentItem) : bool :=
  match find_option (property correctMap item.(item_id)) item.(options) with
  | Some _ => true
  | None => false
  end.

(** The items from index [i] on that satisfy [f] at their index. *)
Fixpoint filter_indexed {A : Type} (f : nat -> A -> bool) (i : nat)
  (l : list A) : list A :=
  match l with
  | [] => []
  | x :: r => if f i x then x :: filter_indexed f (S i) r
              else filter_indexed f (S i) r
  end.

(** ** js/chatLogic.js: the quiz report *)

Definition mastery_key (chapter : Z) : jsstring :=
  str "mastery_" ++ number_to_string chapter.

Definition quiz_attempts_key (chapter : Z) : jsstring :=
  str "quiz_attempts_" ++ number_to_string chapter.

Definition saved_report_key (chapter timestamp' : Z) : jsstring :=
  str "saved_report_" ++ number_to_string chapter ++ str "_"
  ++ number_to_string timestamp'.

Definition newline : jsstring := [10].

(** [lines.join('\n')] *)
Fixpoint join_lines (lines : list jsstring) : jsstring :=
  match lines with
  | [] => []
  | [l] => l
  | l :: rest => l ++ newline ++ join_lines rest
  end.

Definition check_mark : jsstring := [9989].
Definition cross_mark : jsstring := [10060].
Definition memo : jsstring := [55357; 56541].
Definition arrow : jsstring := [8594].

(** [`${q.id}. ${q.prompt} → ${q.answer}`] *)
Definition correct_line (q : CorrectEntry) : jsstring :=
  ToString q.(correct_id) ++ str ". " ++ q.(correct_prompt) ++ str " " ++ arrow
  ++ str " " ++ q.(answer).

(** [`${q.id}. ${q.prompt} → Your answer: ${q.userAnswer} | Correct: ${q.correctAnswer}`] *)
Definition incorrect_line (q : IncorrectEntry) : jsstring :=
  ToString q.(incorrect_id) ++ str ". " ++ q.(incorrect_prompt) ++ str " "
  ++ arrow ++ str " Your answer: " ++ q.(userAnswer) ++ str " | Correct: "
  ++ q.(correctAnswer).

(** [percent score] stands for [Math.round((score / total) * 100)] with
    [total = 20], which is floating-point arithmetic; [now] is what
    [Date.now()] returns.  The result is the store after the call and the
    report returned. *)
Definition generateQuizReport (percent : Z -> Z) (st : Storage) (now : Z)
  (currentChapter : Z) (results : QuizResults) (timeOnTask attempts : Z)
  (reflection : jsstring) : Storage * jsstring :=
  let total := 20%Z in
  let studentName :=
    match getItem st STUDENT_NAME_KEY with
    | Some n => if truthy n then n else str "[Name]"
    | None => str "[Name]"
    end in
  let st1 := setItem st (mastery_key currentChapter)
               (if results.(quiz_mastery) then str "1" else str "0") in
  let st2 := setItem st1 (quiz_attempts_key currentChapter)
               (number_to_string attempts) in
  let report0 :=
    str "*Mini OpenStax " ++ em_dash ++ str " Lesson "
    ++ number_to_string (currentChapter + 1) ++ str "*" ++ newline in
  let report1 := report0 ++ str "Student: " ++ studentName ++ newline in
  let report2 :=
    report1 ++ str "Score: " ++ number_to_string results.(score) ++ str "/"
    ++ number_to_string total ++ str " ("
    ++ number_to_string (percent results.(score)) ++ str "%) " ++ em_dash
    ++ str " " in
  let report3 :=
    report2 ++ (if results.(quiz_mastery) then check_mark ++ str " MASTERED"
                else cross_mark ++ str " Needs Review") in
  let report4 :=
    report3 ++ newline ++ str "Time: " ++ number_to_string timeOnTask
    ++ str "s | Attempts: " ++ number_to_string attempts ++ newline in
  let report5 :=
    if truthy reflection then
      report4 ++ newline ++ memo ++ str " Reflection:" ++ newline ++ dquote
      ++ reflection ++ dquote ++ newline
    else report4 in
  let report6 := report5 ++ newline in
  let report7 :=
    match results.(correctList) with
    | [] => report6
    | _ :: _ =>
        report6 ++ check_mark ++ str " CORRECT ("
        ++ number_to_string (Z.of_nat (length results.(correctList)))
        ++ str "):" ++ newline
        ++ join_lines (map correct_line results.(correctList))
        ++ two_newlines
    end in
  let report8 :=
    match results.(incorrectList) with
    | [] => report7
    | _ :: _ =>
        report7 ++ cross_mark ++ str " INCORRECT ("
        ++ number_to_string (Z.of_nat (length results.(incorrectList)))
        ++ str "):" ++ newline
        ++ join_lines (map incorrect_line results.(incorrectList))
        ++ two_newlines
    end in
  let report := report8 ++ str "Report generated via Mini OpenStax." in
  let timestamp' := now in
  (setItem st2 (saved_report_key currentChapter timestamp') report, report).

(** ** js/chatUI.js: the export button *)

(** [exportBtn.onclick]: the mastery passed on is whether the slot
    [`mastery_${currentChapter}`] holds ["1"]. *)
Definition exportBtn_onclick (pg : Page) (now : Z) (currentChapter : Z)
  : completion Page :=
  let mastery' :=
    bool_decide (getItem (storage pg) (mastery_key currentChapter)
                 = Some (str "1")) in
  exportMyInsights pg now currentChapter mastery'.

(** What [handlePeerImport] does with a payload it hands on to
    [importPeerInsight]: the store after the import, the alert of the
    import's message, and the success flag as the value returned. *)
Definition imported (pg : Page) (p : jsstring) (L : Z) : Page * option bool :=
  (alert {| storage := fst (importPeerInsight (storage pg) p L);
            alerts := alerts pg; windows := windows pg |}
         (message (snd (importPeerInsight (storage pg) p L))),
   Some (success (snd (importPeerInsight (storage pg) p L)))).

(** ** A sample quiz *)

Definition sample_options : list QuizOption :=
  [{| option_id := JString (str "a"); option_text := str "cat" |};
   {| option_id := JString (str "b"); option_text := str "cot" |}].

Definition sample_items : list AssessmentItem :=
  [{| item_id := JNumber 1; prompt := str "Which word has a short a?";
      options := sample_options |};
   {| item_id := JNumber 2; prompt := str "Which word has a short o?";
      options := sample_options |}].

Definition sample_key : gmap jsstring js_value :=
  <[str "1" := JString (str "a")]> (<[str "2" := JString (str "b")]> ∅).

Definition sample_answers : list js_value :=
  [JString (str "a"); JString (str "a")].

Definition sample_results : QuizResults :=
  {| score := 1;
     correctList :=
       [{| correct_id := JNumber 1; correct_prompt := str "Which word has a short a?";
           answer := str "cat" |}];
     incorrectList :=
       [{| incorrect_id := JNumber 2;
           incorrect_prompt := str "Which word has a short o?";
           userAnswer := str "cat"; correctAnswer := str "cot" |}];
     quiz_mastery := false |}.

(** ** Numbers and numerals *)

(** The integers a double holds exactly together with their neighbours:
    magnitude at most [Number.MAX_SAFE_INTEGER], 2^53 - 1.  On these the
    exact arithmetic, parsing and printing of this file are the
    runtime's. *)
Definition safe_integer (z : Z) : Prop := (- 2 ^ 53 < z < 2 ^ 53)%Z.

(** What is left of a field after an optional sign. *)
Definition after_sign (s : jsstring) : jsstring :=
  match s with
  | c :: r => if (c =? 45) || (c =? 43) then r else s
  | [] => s
  end.

(** Whether a field starts, after leading white space and an optional
    sign, with a decimal digit. *)
Definition starts_with_number (s : jsstring) : bool :=
  match after_sign (trimStart s) with
  | c :: _ => is_digit c
  | [] => false
  end.

(** Whether a field is a decimal integer and nothing else: an optional
    sign and one or more decimal digits. *)
Definition is_integer_numeral (s : jsstring) : bool :=
  match after_sign s with
  | c :: r => forallb is_digit (c :: r)
  | [] => false
  end.

(** ** Proof automation *)

(** [lia] with the equations of division and remainder by constants. *)
Ltac div_lia := zify; Z.to_euclidean_division_equations; lia.

(** Decides the range tests of the coders from the bounds in the context. *)
Ltac decide_tests :=
  repeat match goal with
    | |- context [?a <? ?b] => destruct (N.ltb_spec a b); try lia
    | |- context [?a <=? ?b] => destruct (N.leb_spec a b); try lia
    end.

(** * Properties *)

(** ** The runtime on small inputs *)

Example split_three : split 124 (str "a|b|c") = [str "a"; str "b"; str "c"].
Proof. reflexivity. Qed.

Example split_empty_fields : split 124 (str "|x|") = [[]; str "x"; []].
Proof. reflexivity. Qed.

Example trim_both : trim (str "  hi there ") = str "hi there".
Proof. reflexivity. Qed.

Example parseInt_prefix : parseInt (str " 12abc") = Some 12%Z.
Proof. reflexivity. Qed.

Example parseInt_nan : parseInt (str "abc") = None.
Proof. reflexivity. Qed.

Example number_to_string_1700 : number_to_string 1700%Z = str "1700".
Proof. reflexivity. Qed.

Example number_to_string_neg : number_to_string (-305)%Z = str "-305".
Proof. reflexivity. Qed.

Example encode_hello :
  encodeURIComponent (str "Hello, it's great!") = Normal (str "Hello%2C%20it's%20great!").
Proof. reflexivity. Qed.

Example encode_bar_newline :
  encodeURIComponent [97; 124; 10; 233; 8364; 55357; 56832]
  = Normal (str "a%7C%0A%C3%A9%E2%82%AC%F0%9F%98%80").
Proof. reflexivity. Qed.

Example decode_mixed :
  decodeURIComponent (str "a%7c%0A%C3%A9%E2%82%AC%F0%9F%98%80")
  = Normal [97; 124; 10; 233; 8364; 55357; 56832].
Proof. reflexivity. Qed.

Example decode_bad_escape : decodeURIComponent (str "100%") = Throw URIError.
Proof. reflexivity. Qed.

Example decode_overlong : decodeURIComponent (str "%C0%80") = Throw URIError.
Proof. reflexivity. Qed.

Example encode_lone_surrogate : encodeURIComponent [55357] = Throw URIError.
Proof. reflexivity. Qed.

Example export_incomplete_is_null :
  exportInsightPayload kofi_device 1700000000000 3 false = Normal None.
Proof. reflexivity. Qed.

Example export_unpaired_surrogate_throws :
  exportInsightPayload (setItem kofi_device (draft_key 3) [104; 105; 55357])
                       1700000000000 3 false
  = Throw URIError.
Proof. reflexivity. Qed.

Example import_blank_text :
  importPeerInsight group_8B (str "8B|3|1700000000000|%20%0A|Ama|M") 3
  = (group_8B, failure (str "Empty reflection text.")).
Proof. reflexivity. Qed.

Example import_bad_escape_is_caught :
  importPeerInsight group_8B (str "8B|3|1700000000000|100%|Ama|M") 3
  = (group_8B,
     failure (str "Failed to parse. Share via WhatsApp exactly as sent.")).
Proof. reflexivity. Qed.

Example import_lesson_mismatch :
  snd (importPeerInsight group_8B (str "8B|4|1700000000000|hi|Ama|M") 3)
  = failure (str "This insight is from Lesson 5, but you're on Lesson 4.").
Proof. reflexivity. Qed.

Example save_stores_trimmed_text :
  getArray (saveReflectionToGroup kofi_device 1700000000000 3 (Some (str " hi ")))
           (reflections_key (str "8B") 3)
  = [{| text := str "hi"; timestamp := 1700000000000; student := str "Kofi";
        mastery := None |}].
Proof. reflexivity. Qed.

(** ** Facts about strings *)

Section Strings.

Implicit Types (s r : jsstring) (c : N).

Lemma trimStart_head s c r :
  trimStart s = c :: r -> is_white_space c = false.
Proof.
  induction s as [|a s IH]; simpl; [discriminate|].
  destruct (is_white_space a) eqn:Ha; [exact IH|].
  intros E. inversion E; subst. exact Ha.
Qed.

Lemma trimStart_fixed c r :
  is_white_space c = false -> trimStart (c :: r) = c :: r.
Proof. intros H. simpl. rewrite H. reflexivity. Qed.

Lemma trimStart_suffix s : exists p, s = p ++ trimStart s.
Proof.
  induction s as [|a s [p IH]]; simpl.
  - exists []. reflexivity.
  - destruct (is_white_space a).
    + exists (a :: p). simpl. f_equal. exact IH.
    + exists []. reflexivity.
Qed.

Lemma trimEnd_prefix s : exists q, s = trimEnd s ++ q.
Proof.
  unfold trimEnd. destruct (trimStart_suffix (rev s)) as [p Hp].
  exists (rev p). rewrite <- rev_app_distr, <- Hp, rev_involutive. reflexivity.
Qed.

(** Trimming a trimmed string changes nothing. *)
Lemma trim_idempotent s : trim (trim s) = trim s.
Proof.
  unfold trim at 2 3. set (a := trimStart s).
  destruct (trimEnd a) as [|c b] eqn:Eb; [reflexivity|].
  destruct (trimEnd_prefix a) as [q Hq]. rewrite Eb in Hq.
  assert (Hc : is_white_space c = false).
  { apply (trimStart_head s c (b ++ q)). fold a. rewrite Hq. reflexivity. }
  unfold trim. rewrite (trimStart_fixed c b Hc).
  unfold trimEnd in *.
  destruct (trimStart (rev a)) as [|d t] eqn:Et; [discriminate|].
  assert (Hd : is_white_space d = false) by (eapply trimStart_head; eauto).
  rewrite <- Eb, rev_involutive. rewrite (trimStart_fixed d t Hd). reflexivity.
Qed.

Lemma truthy_true s : truthy s = true <-> s <> [].
Proof. destruct s; simpl; split; congruence. Qed.

Lemma truthy_false s : truthy s = false <-> s = [].
Proof. destruct s; simpl; split; congruence. Qed.

Lemma str_eqb_eq (a b : jsstring) : str_eqb a b = true <-> a = b.
Proof. unfold str_eqb. apply bool_decide_eq_true. Qed.

(** A string without the separator is one field. *)
Lemma split_none sep s : sep ∉ s -> split sep s = [s].
Proof.
  induction s as [|a s IH]; intros H; simpl; [reflexivity|].
  apply not_elem_of_cons in H as [Ha Hs].
  destruct (N.eqb_spec a sep); [congruence|]. rewrite (IH Hs). reflexivity.
Qed.

(** The first separator ends the first field. *)
Lemma split_field sep s r :
  sep ∉ s -> split sep (s ++ sep :: r) = s :: split sep r.
Proof.
  induction s as [|a s IH]; intros H; simpl.
  - rewrite N.eqb_refl. reflexivity.
  - apply not_elem_of_cons in H as [Ha Hs].
    destruct (N.eqb_spec a sep); [congruence|]. rewrite (IH Hs). reflexivity.
Qed.

Lemma split_nonempty sep s : split sep s <> [].
Proof.
  destruct s as [|a s]; simpl; [discriminate|].
  destruct (a =? sep); [discriminate|]. destruct (split sep s); discriminate.
Qed.

End Strings.

(** ** Facts about numbers *)

Section Numbers.

Lemma is_digit_bounds c : is_digit c = true <-> 48 <= c <= 57.
Proof. unfold is_digit. rewrite andb_true_iff, !N.leb_le. reflexivity. Qed.

Lemma digit_not_white_space c : is_digit c = true -> is_white_space c = false.
Proof.
  intros H%is_digit_bounds. unfold is_white_space.
  repeat (apply orb_false_iff; split);
    try (apply N.eqb_neq; lia).
  apply andb_false_iff. left. apply N.leb_gt. lia.
Qed.

Lemma digits_rev_all_digits fuel n :
  Forall (fun c => is_digit c = true) (digits_rev fuel n).
Proof.
  revert n. induction fuel as [|fuel IH]; intros n; cbn [digits_rev]; [constructor|].
  destruct (N.ltb_spec n 10).
  - repeat constructor. apply is_digit_bounds. lia.
  - constructor; [|apply IH]. apply is_digit_bounds.
    div_lia.
Qed.

Lemma digits_rev_nonempty fuel n : digits_rev (S fuel) n <> [].
Proof. simpl. destruct (n <? 10); discriminate. Qed.

(** The value of a digit string given least significant digit first. *)
Lemma digits_value_rev ds :
  digits_value (rev ds) = fold_right (fun d acc => 10 * acc + (d - 48)) 0 ds.
Proof.
  unfold digits_value. rewrite <- (rev_involutive ds) at 2.
  rewrite fold_left_rev_right. reflexivity.
Qed.

Lemma digits_rev_value fuel n :
  n < 2 ^ N.of_nat fuel ->
  fold_right (fun d acc => 10 * acc + (d - 48)) 0 (digits_rev fuel n) = n.
Proof.
  revert n. induction fuel as [|fuel IH]; intros n Hn.
  - simpl in *. lia.
  - rewrite Nat2N.inj_succ, N.pow_succ_r' in Hn. cbn [digits_rev].
    destruct (N.ltb_spec n 10); cbn [fold_right]; [lia|].
    rewrite IH.
    + div_lia.
    + div_lia.
Qed.

Lemma digits_value_digits n : digits_value (digits n) = n.
Proof.
  unfold digits. rewrite digits_value_rev. apply digits_rev_value.
  rewrite Nat2N.inj_succ, N2Nat.id.
  destruct n as [|p]; [reflexivity|].
  apply N.log2_spec. reflexivity.
Qed.

Lemma digits_all_digits n : Forall (fun c => is_digit c = true) (digits n).
Proof. unfold digits. apply Forall_rev, digits_rev_all_digits. Qed.

Lemma digits_nonempty n : digits n <> [].
Proof.
  unfold digits. intros H. apply (f_equal (@rev N)) in H.
  rewrite rev_involutive in H. simpl rev in H.
  revert H. apply digits_rev_nonempty.
Qed.

Lemma take_digits_all ds :
  Forall (fun c => is_digit c = true) ds -> take_digits ds = ds.
Proof.
  induction 1 as [|c ds Hc _ IH]; simpl; [reflexivity|].
  rewrite Hc, IH. reflexivity.
Qed.

(** [parseInt] reads back what a template literal writes for an integer. *)
Lemma parseInt_number_to_string z : parseInt (number_to_string z) = Some z.
Proof.
  assert (Hnat : forall n, parseInt (digits n) = Some (Z.of_N n)).
  { intros n. pose proof (digits_all_digits n) as Hall.
    pose proof (digits_nonempty n) as Hne.
    pose proof (digits_value_digits n) as Hval.
    unfold parseInt. destruct (digits n) as [|c ds] eqn:E; [congruence|].
    pose proof (Forall_inv Hall) as Hc. simpl in Hc.
    rewrite trimStart_fixed by (apply digit_not_white_space; exact Hc).
    apply is_digit_bounds in Hc.
    destruct (N.eqb_spec c 45); [lia|]. destruct (N.eqb_spec c 43); [lia|].
    rewrite take_digits_all by exact Hall. rewrite Hval. reflexivity. }
  destruct z as [|p|p]; simpl number_to_string.
  - apply Hnat.
  - rewrite Hnat. reflexivity.
  - pose proof (digits_all_digits (N.pos p)) as Hall.
    pose proof (digits_nonempty (N.pos p)) as Hne.
    pose proof (digits_value_digits (N.pos p)) as Hval.
    unfold parseInt. rewrite trimStart_fixed by reflexivity.
    rewrite N.eqb_refl, take_digits_all by exact Hall.
    destruct (digits (N.pos p)) as [|c ds] eqn:E; [congruence|].
    rewrite Hval. reflexivity.
Qed.

Lemma number_to_string_inj a b :
  number_to_string a = number_to_string b -> a = b.
Proof.
  intros H. pose proof (parseInt_number_to_string a) as Ha.
  rewrite H, parseInt_number_to_string in Ha. congruence.
Qed.

(** A rendered integer holds only digits and at most a leading minus. *)
Lemma number_to_string_chars z c :
  c ∈ number_to_string z -> c = 45 \/ 48 <= c <= 57.
Proof.
  assert (Hd : forall n, c ∈ digits n -> 48 <= c <= 57).
  { intros n Hc. pose proof (digits_all_digits n) as Hall.
    rewrite Forall_forall in Hall. apply is_digit_bounds, Hall. exact Hc. }
  destruct z as [|p|p]; simpl number_to_string; intros Hc.
  - right. eapply Hd, Hc.
  - right. eapply Hd, Hc.
  - apply elem_of_cons in Hc as [->|Hc]; [left; reflexivity|right; eapply Hd, Hc].
Qed.

Lemma number_to_string_no_bar z : 124 ∉ number_to_string z.
Proof. intros H%number_to_string_chars. lia. Qed.

Lemma number_to_string_no_underscore z : 95 ∉ number_to_string z.
Proof. intros H%number_to_string_chars. lia. Qed.

End Numbers.

(** ** Facts about URI component coding *)

Section UriCoding.

(** Induction over a string read one or two code units at a time. *)
Lemma two_step_ind (P : jsstring -> Prop) :
  P [] ->
  (forall c r, P r -> (forall d r', r = d :: r' -> P r') -> P (c :: r)) ->
  forall s, P s.
Proof.
  intros Hnil Hcons s.
  enough (H : P s /\ (forall d r', s = d :: r' -> P r')) by apply H.
  induction s as [|c r [IH1 IH2]].
  - split; [exact Hnil|discriminate].
  - split; [apply Hcons; assumption|].
    intros d r' E. inversion E; subst. exact IH1.
Qed.

Lemma hex_value_hex_digit d : d < 16 -> hex_value (hex_digit d) = Some d.
Proof.
  intros H.
  assert (E : d = 0 \/ d = 1 \/ d = 2 \/ d = 3 \/ d = 4 \/ d = 5 \/ d = 6
              \/ d = 7 \/ d = 8 \/ d = 9 \/ d = 10 \/ d = 11 \/ d = 12
              \/ d = 13 \/ d = 14 \/ d = 15) by lia.
  repeat (destruct E as [->|E]; [reflexivity|]). subst. reflexivity.
Qed.

(** A hexadecimal digit is a decimal digit or one of [A] to [F]. *)
Lemma hex_digit_range d :
  48 <= hex_digit d <= 57 \/ 65 <= hex_digit d <= 70.
Proof.
  unfold hex_digit.
  destruct (nth_in_or_default (N.to_nat d) hex_digits 48) as [H| ->];
    [|left; lia].
  revert H. generalize (nth (N.to_nat d) hex_digits 48). intros c H.
  vm_compute in H.
  repeat (destruct H as [<-|H]; [lia|]). destruct H.
Qed.

Lemma pct_octet_chars b c :
  c ∈ pct_octet b -> c = 37 \/ 48 <= c <= 57 \/ 65 <= c <= 70.
Proof.
  unfold pct_octet. rewrite !elem_of_cons, elem_of_nil.
  pose proof (hex_digit_range (b / 16)). pose proof (hex_digit_range (b mod 16)).
  intros [->|[->|[->|[]]]]; tauto.
Qed.

Lemma pct_octets_chars bs c :
  c ∈ pct_octets bs -> c = 37 \/ 48 <= c <= 57 \/ 65 <= c <= 70.
Proof.
  unfold pct_octets. induction bs as [|b bs IH]; cbn [map concat].
  - intros H. apply elem_of_nil in H. destruct H.
  - rewrite elem_of_app. intros [H|H]; [eapply pct_octet_chars, H|exact (IH H)].
Qed.

Lemma is_unescaped_not_bar c : is_unescaped c = true -> c <> 124.
Proof. intros H ->. discriminate H. Qed.

Lemma is_unescaped_not_percent c : is_unescaped c = true -> c <> 37.
Proof. intros H ->. discriminate H. Qed.

(** No escaped text holds the field delimiter. *)
Lemma encodeURIComponent_no_bar s :
  forall e, encodeURIComponent s = Normal e -> 124 ∉ e.
Proof.
  induction s as [|c r IH1 IH2] using two_step_ind; intros e; cbn [encodeURIComponent].
  - intros [= <-]. apply not_elem_of_nil.
  - destruct (is_unescaped c) eqn:Hu.
    { destruct (encodeURIComponent r) as [e'|] eqn:E; [|discriminate].
      intros [= <-]. apply not_elem_of_cons. split.
      - intros Hc. symmetry in Hc. revert Hc. apply is_unescaped_not_bar, Hu.
      - apply IH1. reflexivity. }
    destruct (is_lead_surrogate c).
    { destruct r as [|d r']; [discriminate|].
      destruct (is_trail_surrogate d); [|discriminate].
      destruct (encodeURIComponent r') as [e'|] eqn:E; [|discriminate].
      intros [= <-]. rewrite elem_of_app. intros [H|H].
      - apply pct_octets_chars in H. lia.
      - revert H. eapply IH2; [reflexivity|exact E]. }
    destruct (is_trail_surrogate c); [discriminate|].
    destruct (encodeURIComponent r) as [e'|] eqn:E; [|discriminate].
    intros [= <-]. rewrite elem_of_app. intros [H|H].
    + apply pct_octets_chars in H. lia.
    + revert H. apply IH1. reflexivity.
Qed.

Lemma pct_tokens_octet b r :
  b < 256 -> pct_tokens (pct_octet b ++ r) = cmap (cons (Oct b)) (pct_tokens r).
Proof.
  intros Hb. unfold pct_octet. cbn [app pct_tokens].
  rewrite N.eqb_refl, !hex_value_hex_digit by div_lia.
  replace (16 * (b / 16) + b mod 16) with b by div_lia. reflexivity.
Qed.

Lemma pct_tokens_octets bs r :
  Forall (fun b => b < 256) bs ->
  pct_tokens (pct_octets bs ++ r) = cmap (app (map Oct bs)) (pct_tokens r).
Proof.
  unfold pct_octets. induction 1 as [|b bs Hb _ IH]; cbn [map concat app].
  - destruct (pct_tokens r); reflexivity.
  - rewrite <- app_assoc, pct_tokens_octet, IH by exact Hb.
    destruct (pct_tokens r); reflexivity.
Qed.

Lemma utf8_octets_bound cp :
  cp < 1114112 -> Forall (fun b => b < 256) (utf8_octets cp).
Proof.
  intros H. unfold utf8_octets.
  repeat (match goal with |- context [?a <? ?b] => destruct (N.ltb_spec a b) end);
    repeat constructor; div_lia.
Qed.

Lemma surrogate_pair_range c d :
  is_lead_surrogate c = true -> is_trail_surrogate d = true ->
  65536 <= surrogate_pair_to_code_point c d < 1114112.
Proof.
  unfold is_lead_surrogate, is_trail_surrogate, surrogate_pair_to_code_point.
  rewrite !andb_true_iff, !N.leb_le. lia.
Qed.

Lemma utf16_of_surrogate_pair c d :
  is_lead_surrogate c = true -> is_trail_surrogate d = true ->
  utf16_encode_code_point (surrogate_pair_to_code_point c d) = [c; d].
Proof.
  intros Hc Hd. pose proof (surrogate_pair_range c d Hc Hd) as Hr.
  unfold utf16_encode_code_point.
  destruct (N.ltb_spec (surrogate_pair_to_code_point c d) 65536); [lia|].
  revert Hc Hd. clear.
  unfold is_lead_surrogate, is_trail_surrogate, surrogate_pair_to_code_point.
  rewrite !andb_true_iff, !N.leb_le. intros Hc Hd.
  f_equal; [|f_equal]; div_lia.
Qed.

End UriCoding.

Section UriRoundTrip.

Lemma decode_tokens_1 b r :
  b < 128 -> decode_tokens (Oct b :: r) = cmap (cons b) (decode_tokens r).
Proof. intros H. cbn [decode_tokens]. decide_tests. reflexivity. Qed.

Lemma decode_tokens_2 b b1 r :
  192 <= b < 224 -> 128 <= b1 <= 191 ->
  128 <= (b - 192) * 64 + (b1 - 128) ->
  decode_tokens (Oct b :: Oct b1 :: r)
  = cmap (app (utf16_encode_code_point ((b - 192) * 64 + (b1 - 128))))
         (decode_tokens r).
Proof.
  intros Hb H1 Hcp. cbn [decode_tokens]; cbv zeta; unfold is_continuation.
  decide_tests. reflexivity.
Qed.

Lemma decode_tokens_3 b b1 b2 r :
  224 <= b < 240 -> 128 <= b1 <= 191 -> 128 <= b2 <= 191 ->
  2048 <= (b - 224) * 4096 + (b1 - 128) * 64 + (b2 - 128) ->
  ~ (55296 <= (b - 224) * 4096 + (b1 - 128) * 64 + (b2 - 128) <= 57343) ->
  decode_tokens (Oct b :: Oct b1 :: Oct b2 :: r)
  = cmap (app (utf16_encode_code_point
                 ((b - 224) * 4096 + (b1 - 128) * 64 + (b2 - 128))))
         (decode_tokens r).
Proof.
  intros Hb H1 H2 Hcp Hsur. cbn [decode_tokens]; cbv zeta; unfold is_continuation.
  decide_tests; reflexivity.
Qed.

Lemma decode_tokens_4 b b1 b2 b3 r :
  240 <= b < 248 -> 128 <= b1 <= 191 -> 128 <= b2 <= 191 -> 128 <= b3 <= 191 ->
  65536 <= (b - 240) * 262144 + (b1 - 128) * 4096 + (b2 - 128) * 64 + (b3 - 128)
        <= 1114111 ->
  decode_tokens (Oct b :: Oct b1 :: Oct b2 :: Oct b3 :: r)
  = cmap (app (utf16_encode_code_point
                 ((b - 240) * 262144 + (b1 - 128) * 4096 + (b2 - 128) * 64
                  + (b3 - 128))))
         (decode_tokens r).
Proof.
  intros Hb H1 H2 H3 Hcp. cbn [decode_tokens]; cbv zeta; unfold is_continuation.
  decide_tests. reflexivity.
Qed.

(** The octets of a code point decode to its UTF-16 form. *)
Lemma decode_tokens_code_point cp ts :
  cp < 1114112 -> ~ (55296 <= cp <= 57343) ->
  decode_tokens (map Oct (utf8_octets cp) ++ ts)
  = cmap (app (utf16_encode_code_point cp)) (decode_tokens ts).
Proof.
  intros Hmax Hsur. unfold utf8_octets.
  destruct (N.ltb_spec cp 128); [|destruct (N.ltb_spec cp 2048);
    [|destruct (N.ltb_spec cp 65536)]]; cbn [map app].
  - rewrite decode_tokens_1 by assumption.
    unfold utf16_encode_code_point. decide_tests.
    destruct (decode_tokens ts); reflexivity.
  - rewrite decode_tokens_2 by div_lia.
    replace ((192 + cp / 64 - 192) * 64 + (128 + cp mod 64 - 128)) with cp
      by div_lia.
    reflexivity.
  - rewrite decode_tokens_3 by div_lia.
    replace ((224 + cp / 4096 - 224) * 4096 + (128 + (cp / 64) mod 64 - 128) * 64
             + (128 + cp mod 64 - 128)) with cp by div_lia.
    reflexivity.
  - rewrite decode_tokens_4 by div_lia.
    replace ((240 + cp / 262144 - 240) * 262144
             + (128 + (cp / 4096) mod 64 - 128) * 4096
             + (128 + (cp / 64) mod 64 - 128) * 64 + (128 + cp mod 64 - 128))
      with cp by div_lia.
    reflexivity.
Qed.

Lemma is_unescaped_ascii c : is_unescaped c = true -> c < 128.
Proof.
  unfold is_unescaped. rewrite !orb_true_iff, !andb_true_iff, !N.leb_le, !N.eqb_eq.
  lia.
Qed.

Lemma surrogate_tests c :
  is_lead_surrogate c = false -> is_trail_surrogate c = false ->
  ~ (55296 <= c <= 57343).
Proof.
  unfold is_lead_surrogate, is_trail_surrogate.
  rewrite !andb_false_iff, !N.leb_gt. lia.
Qed.

Lemma not_surrogate_below c :
  c < 55296 -> is_lead_surrogate c = false /\ is_trail_surrogate c = false.
Proof.
  intros H. unfold is_lead_surrogate, is_trail_surrogate.
  rewrite !andb_false_iff, !N.leb_gt. lia.
Qed.

(** A well-formed string is escaped without error, and the escapes are
    the tokens [encoded_tokens] lists. *)
Lemma encodeURIComponent_tokens s :
  isWellFormed s = true ->
  exists e, encodeURIComponent s = Normal e
            /\ pct_tokens e = Normal (encoded_tokens s).
Proof.
  induction s as [|c r IH1 IH2] using two_step_ind;
    cbn [isWellFormed encodeURIComponent encoded_tokens].
  - intros _. exists []. split; reflexivity.
  - destruct (is_unescaped c) eqn:Hu.
    { pose proof (is_unescaped_ascii c Hu) as Hc.
      destruct (not_surrogate_below c ltac:(lia)) as [-> ->]. cbn [negb andb].
      intros [_ Hr]%andb_true_iff. destruct (IH1 Hr) as (e & -> & He).
      exists (c :: e). split; [reflexivity|]. cbn [pct_tokens].
      destruct (N.eqb_spec c 37) as [->|_]; [discriminate Hu|].
      rewrite He. reflexivity. }
    destruct (is_lead_surrogate c) eqn:Hl.
    { destruct r as [|d r']; [discriminate|].
      intros [Hd Hr]%andb_true_iff. rewrite Hd.
      destruct (IH2 d r' eq_refl Hr) as (e & -> & He).
      eexists. split; [reflexivity|].
      rewrite pct_tokens_octets, He; [reflexivity|].
      apply utf8_octets_bound. apply surrogate_pair_range; assumption. }
    destruct (is_trail_surrogate c) eqn:Ht; [discriminate|]. cbn [negb andb].
    intros [Hc%N.ltb_lt Hr]%andb_true_iff. destruct (IH1 Hr) as (e & -> & He).
    eexists. split; [reflexivity|].
    rewrite pct_tokens_octets, He; [reflexivity|].
    apply utf8_octets_bound. lia.
Qed.

Lemma decode_encoded_tokens s :
  isWellFormed s = true -> decode_tokens (encoded_tokens s) = Normal s.
Proof.
  induction s as [|c r IH1 IH2] using two_step_ind;
    cbn [isWellFormed encoded_tokens].
  - reflexivity.
  - destruct (is_unescaped c) eqn:Hu.
    { pose proof (is_unescaped_ascii c Hu) as Hc.
      destruct (not_surrogate_below c ltac:(lia)) as [-> ->]. cbn [negb andb].
      intros [_ Hr]%andb_true_iff. cbn [decode_tokens]. rewrite (IH1 Hr).
      reflexivity. }
    destruct (is_lead_surrogate c) eqn:Hl.
    { destruct r as [|d r']; [discriminate|].
      intros [Hd Hr]%andb_true_iff.
      pose proof (surrogate_pair_range c d Hl Hd) as Hrange.
      rewrite decode_tokens_code_point by lia.
      rewrite (IH2 d r' eq_refl Hr), utf16_of_surrogate_pair by assumption.
      reflexivity. }
    destruct (is_trail_surrogate c) eqn:Ht; [discriminate|]. cbn [negb andb].
    intros [Hc%N.ltb_lt Hr]%andb_true_iff.
    rewrite decode_tokens_code_point
      by (try lia; apply surrogate_tests; assumption).
    rewrite (IH1 Hr). unfold utf16_encode_code_point.
    destruct (N.ltb_spec c 65536); [reflexivity|lia].
Qed.

(** [decodeURIComponent] undoes [encodeURIComponent]. *)
Lemma decodeURIComponent_encodeURIComponent s :
  isWellFormed s = true ->
  exists e, encodeURIComponent s = Normal e
            /\ decodeURIComponent e = Normal s /\ 124 ∉ e.
Proof.
  intros H. destruct (encodeURIComponent_tokens s H) as (e & He & Ht).
  exists e. split; [exact He|]. split.
  - unfold decodeURIComponent. rewrite Ht. cbn [cbind].
    apply decode_encoded_tokens, H.
  - eapply encodeURIComponent_no_bar, He.
Qed.

End UriRoundTrip.

(** ** Facts about the store and its keys *)

Section Store.

Implicit Types (st : Storage) (g : jsstring) (L : Z).

Lemma getItem_setItem_eq st k v : getItem (setItem st k v) k = Some v.
Proof. unfold getItem, setItem. cbn [strings]. apply lookup_insert_eq. Qed.

Lemma getItem_setItem_ne st k k' v :
  k <> k' -> getItem (setItem st k v) k' = getItem st k'.
Proof. intros H. unfold getItem, setItem. cbn [strings]. apply lookup_insert_ne, H. Qed.

Lemma getItem_setArray st k es k' : getItem (setArray st k es) k' = getItem st k'.
Proof. reflexivity. Qed.

Lemma getArray_setArray_eq st k es : getArray (setArray st k es) k = es.
Proof. unfold getArray, setArray. cbn [arrays]. rewrite lookup_insert_eq. reflexivity. Qed.

Lemma getArray_setArray_ne st k k' es :
  k <> k' -> getArray (setArray st k es) k' = getArray st k'.
Proof.
  intros H. unfold getArray, setArray. cbn [arrays].
  rewrite lookup_insert_ne by exact H. reflexivity.
Qed.


Lemma student_name_key_not_group : STUDENT_NAME_KEY <> GROUP_KEY.
Proof. intros H. vm_compute in H. discriminate H. Qed.

Lemma draft_key_not_group L : draft_key L <> GROUP_KEY.
Proof. intros H. unfold draft_key in H. vm_compute in H. discriminate H. Qed.

Lemma draft_key_not_student_name L : draft_key L <> STUDENT_NAME_KEY.
Proof. intros H. unfold draft_key in H. vm_compute in H. discriminate H. Qed.

(** The keys of the buckets and the keys of the string slots are apart. *)
Lemma reflections_key_not_string_slot g L :
  reflections_key g L <> GROUP_KEY
  /\ reflections_key g L <> STUDENT_NAME_KEY
  /\ forall L', reflections_key g L <> draft_key L'.
Proof.
  unfold reflections_key, draft_key.
  split; [|split; [|intros L']]; intros H; vm_compute in H; discriminate H.
Qed.

(** Where the first separator stands decides both sides of it. *)
Lemma first_separator_unique (x : N) (a b u v : jsstring) :
  x ∉ a -> x ∉ b -> a ++ x :: u = b ++ x :: v -> a = b /\ u = v.
Proof.
  revert b. induction a as [|c a IH]; intros [|d b] Ha Hb E; cbn [app] in E.
  - inversion E. auto.
  - inversion E; subst. exfalso. apply Hb. left.
  - inversion E; subst. exfalso. apply Ha. left.
  - inversion E; subst. apply not_elem_of_cons in Ha as [_ Ha].
    apply not_elem_of_cons in Hb as [_ Hb].
    destruct (IH b Ha Hb) as [? ?]; [assumption|]. subst. auto.
Qed.

Lemma elem_of_rev_iff (x : N) (l : jsstring) : x ∈ rev l <-> x ∈ l.
Proof. rewrite !list_elem_of_In. symmetry. apply in_rev. Qed.

(** The same for the last separator. *)
Lemma last_separator_unique (x : N) (l1 l2 r1 r2 : jsstring) :
  x ∉ r1 -> x ∉ r2 -> l1 ++ x :: r1 = l2 ++ x :: r2 -> l1 = l2 /\ r1 = r2.
Proof.
  intros H1 H2 E.
  apply (f_equal (@rev N)) in E. rewrite !rev_app_distr in E. cbn [rev] in E.
  rewrite <- !app_assoc in E. cbn [app] in E.
  apply first_separator_unique in E as [Er El];
    [|rewrite elem_of_rev_iff; assumption..].
  split; apply rev_inj; assumption.
Qed.

(** Two (group, lesson) pairs never share a bucket. *)
Lemma reflections_key_inj g g' L L' :
  reflections_key g L = reflections_key g' L' -> g = g' /\ L = L'.
Proof.
  unfold reflections_key. intros E. apply app_inv_head in E.
  change (str "_") with [95] in E. cbn [app] in E.
  apply last_separator_unique in E as [Eg EL];
    [|apply number_to_string_no_underscore..].
  split; [exact Eg|apply number_to_string_inj, EL].
Qed.

(** [importPeerInsight] with the store threaded by hand. *)
Lemma importPeerInsight_eq st payload L :
  importPeerInsight st payload L =
  match split 124 payload with
  | importGroupId :: chapterStr :: timestampStr :: encodedText
    :: studentName :: masteryFlag :: _ =>
      match parseInt chapterStr, parseInt timestampStr with
      | Some chapter, Some timestamp' =>
          if negb (bool_decide (Some importGroupId = getGroupId st)) then
            (st, failure (group_mismatch_message importGroupId (getGroupId st)))
          else if negb (chapter =? L)%Z then
            (st, failure (lesson_mismatch_message chapter L))
          else
            match decodeURIComponent encodedText with
            | Normal text' =>
                if negb (truthy (trim text')) then
                  (st, failure (str "Empty reflection text."))
                else
                  let key := reflections_key importGroupId chapter in
                  if negb (existsb (fun r => str_eqb r.(student) studentName
                                             && str_eqb r.(text) text')
                                   (getArray st key))
                  then
                    (setArray st key
                       (getArray st key
                        ++ [{| text := text'; timestamp := timestamp';
                               student := studentName;
                               mastery := Some (str_eqb masteryFlag (str "M")) |}]),
                     {| success := true;
                        message := str "Peer insight added successfully!" |})
                  else (st, failure (str "Already imported this insight."))
            | Throw _ =>
                (st, failure (str "Failed to parse. Share via WhatsApp exactly as sent."))
            end
      | _, _ => (st, failure (str "Invalid timestamp or chapter."))
      end
  | _ => (st, failure (str "Invalid format. Paste the full message."))
  end.
Proof.
  unfold importPeerInsight, try_catch, bind, read, lift, ret, write.
  destruct (split 124 payload) as [|f1 [|f2 [|f3 [|f4 [|f5 [|f6 rest]]]]]];
    try reflexivity.
  destruct (parseInt f2) as [c|]; [|reflexivity].
  destruct (parseInt f3) as [t|]; [|reflexivity].
  destruct (negb (bool_decide (Some f1 = getGroupId st))); [reflexivity|].
  destruct (negb (c =? L)%Z); [reflexivity|].
  destruct (decodeURIComponent f4) as [tx|e]; [|reflexivity].
  destruct (negb (truthy (trim tx))); [reflexivity|].
  cbv zeta.
  destruct (negb (existsb _ (getArray st (reflections_key f1 c)))); reflexivity.
Qed.

End Store.

(** ** The gates of [importPeerInsight] *)

Section ImportGates.

Implicit Types (st : Storage) (p : jsstring) (L : Z).

Lemma group_message_not_lesson_message ig cg c L :
  group_mismatch_message ig cg <> lesson_mismatch_message c L.
Proof. intros H. vm_compute in H. discriminate H. Qed.

Lemma import_group_gate st p L ig cs ts et sn mf rest c t :
  split 124 p = ig :: cs :: ts :: et :: sn :: mf :: rest ->
  parseInt cs = Some c -> parseInt ts = Some t ->
  getGroupId st <> Some ig ->
  importPeerInsight st p L
  = (st, failure (group_mismatch_message ig (getGroupId st))).
Proof.
  intros Hs Hc Ht Hg. rewrite importPeerInsight_eq, Hs, Hc, Ht.
  rewrite bool_decide_eq_false_2 by congruence. reflexivity.
Qed.

(** C3: when the group field differs from the active group and the lesson
    field differs from the importing lesson, the answer is the group
    mismatch, with both groups in the message, and not the lesson
    mismatch: the group is tested first. *)
Theorem C3_group_gate_before_lesson_gate st p L ig cs ts et sn mf rest c t :
  split 124 p = ig :: cs :: ts :: et :: sn :: mf :: rest ->
  parseInt cs = Some c -> parseInt ts = Some t ->
  getGroupId st <> Some ig ->
  c <> L ->
  importPeerInsight st p L
  = (st, {| success := false;
            message := str "Insight is for group " ++ dquote ++ ig ++ dquote
                       ++ str ", but you're in " ++ dquote
                       ++ template (getGroupId st) ++ dquote ++ str "." |})
  /\ message (snd (importPeerInsight st p L)) <> lesson_mismatch_message c L.
Proof.
  intros Hs Hc Ht Hg _.
  rewrite (import_group_gate st p L ig cs ts et sn mf rest c t) by assumption.
  split; [reflexivity|]. apply group_message_not_lesson_message.
Qed.

(** Group 7A and lesson 5 offered to a member of 8B on lesson 3. *)
Lemma C3_witness :
  importPeerInsight (setGroupId empty_storage (JString (str "8B")))
                    (str "7A|5|1700000000000|hi|Ama|M") 3
  = (setGroupId empty_storage (JString (str "8B")),
     {| success := false;
        message := str "Insight is for group " ++ dquote ++ str "7A" ++ dquote
                   ++ str ", but you're in " ++ dquote ++ str "8B" ++ dquote
                   ++ str "." |})
  /\ message (snd (importPeerInsight
                     (setGroupId empty_storage (JString (str "8B")))
                     (str "7A|5|1700000000000|hi|Ama|M") 3))
     <> lesson_mismatch_message 5 3.
Proof.
  apply (C3_group_gate_before_lesson_gate
           (setGroupId empty_storage (JString (str "8B")))
           (str "7A|5|1700000000000|hi|Ama|M") 3
           (str "7A") (str "5") (str "1700000000000") (str "hi") (str "Ama")
           (str "M") [] 5%Z 1700000000000%Z).
  - reflexivity.
  - reflexivity.
  - reflexivity.
  - vm_compute. discriminate.
  - lia.
Defined.

(** [parseInt] gives [NaN] exactly for a field that does not start with a
    number. *)
Lemma parseInt_NaN_iff s : parseInt s = None <-> starts_with_number s = false.
Proof.
  assert (Haux : forall s2 : jsstring,
            take_digits s2 = []
            <-> match s2 with c :: _ => is_digit c | [] => false end = false).
  { intros [|d r]; cbn [take_digits]; [tauto|].
    destruct (is_digit d); split; congruence. }
  unfold parseInt, starts_with_number, after_sign.
  destruct (trimStart s) as [|c r]; cbv zeta.
  - etransitivity; [|apply (Haux [])].
    destruct (take_digits []); split; congruence.
  - destruct (c =? 45); cbn [orb].
    + etransitivity; [|apply (Haux r)].
      destruct (take_digits r); split; congruence.
    + destruct (c =? 43).
      * etransitivity; [|apply (Haux r)].
        destruct (take_digits r); split; congruence.
      * etransitivity; [|apply (Haux (c :: r))].
        destruct (take_digits (c :: r)); split; congruence.
Qed.

Lemma parseInt_number s :
  starts_with_number s = true -> exists z, parseInt s = Some z.
Proof.
  intros H. destruct (parseInt s) as [z|] eqn:E; [eauto|].
  apply parseInt_NaN_iff in E. congruence.
Qed.

(** C8, as amended: fewer than six fields give the format failure; six or
    more fields of which the lesson field or the timestamp field does not
    start, after leading white space and an optional sign, with a decimal
    digit give the timestamp-or-chapter failure; the store is unchanged in
    both cases.  When both fields start with a number, whatever follows
    the digits, the answer is never the timestamp-or-chapter failure. *)
Theorem C8_malformed_payload st p L :
  ((length (split 124 p) < 6)%nat ->
   importPeerInsight st p L
   = (st, {| success := false;
             message := str "Invalid format. Paste the full message." |}))
  /\ (forall ig cs ts et sn mf rest,
        split 124 p = ig :: cs :: ts :: et :: sn :: mf :: rest ->
        starts_with_number cs = false \/ starts_with_number ts = false ->
        importPeerInsight st p L
        = (st, {| success := false;
                  message := str "Invalid timestamp or chapter." |}))
  /\ (forall ig cs ts et sn mf rest,
        split 124 p = ig :: cs :: ts :: et :: sn :: mf :: rest ->
        starts_with_number cs = true -> starts_with_number ts = true ->
        message (snd (importPeerInsight st p L))
        <> str "Invalid timestamp or chapter.").
Proof.
  split; [|split].
  - intros Hlen. rewrite importPeerInsight_eq.
    destruct (split 124 p) as [|f1 [|f2 [|f3 [|f4 [|f5 [|f6 rest]]]]]];
      try reflexivity.
    cbn [length] in Hlen. lia.
  - intros ig cs ts et sn mf rest Hs Hnan. rewrite importPeerInsight_eq, Hs.
    destruct Hnan as [H|H]; apply parseInt_NaN_iff in H; rewrite H;
      [reflexivity|].
    destruct (parseInt cs); reflexivity.
  - intros ig cs ts et sn mf rest Hs Hc Ht.
    destruct (parseInt_number cs Hc) as [c Ec].
    destruct (parseInt_number ts Ht) as [t Et].
    rewrite importPeerInsight_eq, Hs, Ec, Et.
    destruct (negb (bool_decide (Some ig = getGroupId st)));
      [cbn [snd message failure]; intros H; vm_compute in H; discriminate H|].
    destruct (negb (c =? L)%Z);
      [cbn [snd message failure]; intros H; vm_compute in H; discriminate H|].
    destruct (decodeURIComponent et) as [tx|];
      [|cbn [snd message failure]; intros H; vm_compute in H; discriminate H].
    destruct (negb (truthy (trim tx)));
      [cbn [snd message failure]; intros H; vm_compute in H; discriminate H|].
    cbv zeta.
    destruct (negb (existsb _ (getArray st (reflections_key ig c))));
      cbn [snd message failure]; intros H; vm_compute in H; discriminate H.
Qed.

(** Three fields, a lesson field that is a word, and a lesson field with
    a word after its digits. *)
Lemma C8_witness :
  importPeerInsight empty_storage (str "8B|3|hello") 3
  = (empty_storage, {| success := false;
                       message := str "Invalid format. Paste the full message." |})
  /\ importPeerInsight empty_storage (str "8B|three|1700000000000|hi|Ama|M") 3
     = (empty_storage, {| success := false;
                          message := str "Invalid timestamp or chapter." |})
  /\ message (snd (importPeerInsight group_8B
                     (str "8B|3rd|1700000000000|hi|Ama|M") 3))
     <> str "Invalid timestamp or chapter.".
Proof.
  split; [|split].
  - apply (proj1 (C8_malformed_payload empty_storage (str "8B|3|hello") 3)).
    vm_compute. lia.
  - apply (proj1 (proj2 (C8_malformed_payload empty_storage
                           (str "8B|three|1700000000000|hi|Ama|M") 3))
             (str "8B") (str "three") (str "1700000000000") (str "hi")
             (str "Ama") (str "M") []).
    + reflexivity.
    + left. reflexivity.
  - apply (proj2 (proj2 (C8_malformed_payload group_8B
                           (str "8B|3rd|1700000000000|hi|Ama|M") 3))
             (str "8B") (str "3rd") (str "1700000000000") (str "hi")
             (str "Ama") (str "M") []).
    + reflexivity.
    + reflexivity.
    + reflexivity.
Defined.

(** C8 as it is written fails for a lesson field that is not a number but
    starts with one: ["3rd"] is no decimal integer, the payload has six
    fields, and the import reads lesson 3 and succeeds. *)
Lemma C8_counterexample :
  split 124 (str "8B|3rd|1700000000000|hi|Ama|M")
  = [str "8B"; str "3rd"; str "1700000000000"; str "hi"; str "Ama"; str "M"]
  /\ is_integer_numeral (str "3rd") = false
  /\ snd (importPeerInsight group_8B (str "8B|3rd|1700000000000|hi|Ama|M") 3)
     = {| success := true; message := str "Peer insight added successfully!" |}
  /\ getArray (fst (importPeerInsight group_8B
                      (str "8B|3rd|1700000000000|hi|Ama|M") 3))
              (reflections_key (str "8B") 3)
     = [{| text := str "hi"; timestamp := 1700000000000; student := str "Ama";
           mastery := Some true |}].
Proof. repeat split; reflexivity. Qed.

End ImportGates.

Section ImportEffects.

Implicit Types (st : Storage) (p : jsstring) (L : Z).

(** What a call of [importPeerInsight] can do: fail and leave the store as
    it is, or succeed and append one entry to the bucket of the active
    group and the importing lesson. *)
Lemma importPeerInsight_cases st p L :
  (fst (importPeerInsight st p L) = st
   /\ success (snd (importPeerInsight st p L)) = false)
  \/ (exists g e,
        getGroupId st = Some g
        /\ existsb (fun r => str_eqb r.(student) e.(student)
                             && str_eqb r.(text) e.(text))
                   (getArray st (reflections_key g L)) = false
        /\ truthy (trim e.(text)) = true
        /\ importPeerInsight st p L
           = (setArray st (reflections_key g L)
                (getArray st (reflections_key g L) ++ [e]),
              {| success := true;
                 message := str "Peer insight added successfully!" |})).
Proof.
  rewrite importPeerInsight_eq.
  destruct (split 124 p) as [|f1 [|f2 [|f3 [|f4 [|f5 [|f6 rest]]]]]];
    try (left; split; reflexivity).
  destruct (parseInt f2) as [c|]; [|left; split; reflexivity].
  destruct (parseInt f3) as [t|]; [|left; split; reflexivity].
  destruct (bool_decide_reflect (Some f1 = getGroupId st)) as [Hg|Hg];
    cbn [negb]; [|left; split; reflexivity].
  destruct (Z.eqb_spec c L) as [->|Hc]; cbn [negb]; [|left; split; reflexivity].
  destruct (decodeURIComponent f4) as [tx|]; [|left; split; reflexivity].
  destruct (truthy (trim tx)) eqn:Htx; cbn [negb]; [|left; split; reflexivity].
  cbv zeta.
  destruct (existsb _ (getArray st (reflections_key f1 L))) eqn:Hex; cbn [negb];
    [left; split; reflexivity|].
  right.
  exists f1, {| text := tx; timestamp := t; student := f5;
                mastery := Some (str_eqb f6 (str "M")) |}.
  split; [symmetry; exact Hg|].
  split; [exact Hex|]. split; [exact Htx|]. reflexivity.
Qed.

(** C2: a failed import leaves the whole store as it was; a successful one
    appends exactly one entry to the bucket of the importer's active group
    and the importing lesson, and touches no other slot. *)
Theorem C2_import_mutates_only_on_success st p L :
  (success (snd (importPeerInsight st p L)) = false ->
   fst (importPeerInsight st p L) = st)
  /\ (success (snd (importPeerInsight st p L)) = true ->
      exists g e,
        getGroupId st = Some g
        /\ fst (importPeerInsight st p L)
           = setArray st (reflections_key g L)
               (getArray st (reflections_key g L) ++ [e]))
  /\ strings (fst (importPeerInsight st p L)) = strings st
  /\ (forall key,
        (forall g, getGroupId st = Some g -> key <> reflections_key g L) ->
        arrays (fst (importPeerInsight st p L)) !! key = arrays st !! key)
  /\ (forall g' L',
        (Some g', L') <> (getGroupId st, L) ->
        getArray (fst (importPeerInsight st p L)) (reflections_key g' L')
        = getArray st (reflections_key g' L')).
Proof.
  destruct (importPeerInsight_cases st p L)
    as [[Hst Hr]|(g & e & Hg & _ & _ & Hi)].
  - rewrite Hst, Hr. repeat split; try reflexivity; discriminate.
  - rewrite Hi. cbn [fst snd success]. split; [discriminate|].
    split; [intros _; exists g, e; split; [exact Hg|reflexivity]|].
    split; [reflexivity|]. split.
    + intros key Hkey. cbn [setArray arrays].
      apply lookup_insert_ne. intros E. apply (Hkey g Hg). symmetry. exact E.
    + intros g' L' Hne. apply getArray_setArray_ne. intros E.
      apply reflections_key_inj in E as [-> ->]. apply Hne. rewrite Hg. reflexivity.
Qed.

(** A payload for another lesson changes nothing; one for the importing
    lesson appends to the bucket of the active group. *)
Lemma C2_witness :
  fst (importPeerInsight kofi_device (str "8B|4|1700000000000|hi|Ama|M") 3)
  = kofi_device
  /\ exists g e,
       getGroupId kofi_device = Some g
       /\ fst (importPeerInsight kofi_device (str "8B|3|1700000000000|hi|Ama|M") 3)
          = setArray kofi_device (reflections_key g 3)
              (getArray kofi_device (reflections_key g 3) ++ [e]).
Proof.
  split.
  - apply (proj1 (C2_import_mutates_only_on_success kofi_device
                    (str "8B|4|1700000000000|hi|Ama|M") 3)).
    reflexivity.
  - apply (proj1 (proj2 (C2_import_mutates_only_on_success kofi_device
                           (str "8B|3|1700000000000|hi|Ama|M") 3))).
    reflexivity.
Defined.

(** C10: with no active group, a payload that passes the field and number
    checks fails at the group gate, the message shows the importer's group
    as [null], and nothing is stored; no payload at all can succeed. *)
Theorem C10_unset_group_never_imports st p L :
  getGroupId st = None ->
  (forall ig cs ts et sn mf rest c t,
     split 124 p = ig :: cs :: ts :: et :: sn :: mf :: rest ->
     parseInt cs = Some c -> parseInt ts = Some t ->
     importPeerInsight st p L
     = (st, {| success := false;
               message := str "Insight is for group " ++ dquote ++ ig ++ dquote
                          ++ str ", but you're in " ++ dquote ++ str "null"
                          ++ dquote ++ str "." |}))
  /\ success (snd (importPeerInsight st p L)) = false
  /\ fst (importPeerInsight st p L) = st.
Proof.
  intros Hnone. split.
  - intros ig cs ts et sn mf rest c t Hs Hc Ht.
    rewrite (import_group_gate st p L ig cs ts et sn mf rest c t)
      by (try assumption; rewrite Hnone; discriminate).
    rewrite Hnone. reflexivity.
  - destruct (importPeerInsight_cases st p L)
      as [[Hst Hr]|(g & e & Hg & _)]; [split; assumption|congruence].
Qed.

(** A well-formed payload on a device that never joined a group. *)
Lemma C10_witness :
  importPeerInsight empty_storage (str "8B|3|1700000000000|hi|Ama|M") 3
  = (empty_storage,
     {| success := false;
        message := str "Insight is for group " ++ dquote ++ str "8B" ++ dquote
                   ++ str ", but you're in " ++ dquote ++ str "null"
                   ++ dquote ++ str "." |}).
Proof.
  apply (proj1 (C10_unset_group_never_imports empty_storage
                  (str "8B|3|1700000000000|hi|Ama|M") 3 eq_refl)
           (str "8B") (str "3") (str "1700000000000") (str "hi") (str "Ama")
           (str "M") [] 3%Z 1700000000000%Z); reflexivity.
Defined.

End ImportEffects.

(** ** Buckets *)

Section Buckets.

Implicit Types (st : Storage) (p : jsstring) (L : Z) (es : list ReflectionEntry).

(** The dedup test of both writers, as membership of the dedup key. *)
Lemma dedup_test_spec sn tx es :
  existsb (fun r => str_eqb r.(student) sn && str_eqb r.(text) tx) es = true
  <-> (sn, tx) ∈ map entry_id es.
Proof.
  rewrite existsb_exists, list_elem_of_In, in_map_iff. unfold entry_id.
  split; intros (e & H1 & H2); exists e.
  - split; [|exact H1]. apply andb_true_iff in H2 as [Hs Ht].
    apply str_eqb_eq in Hs, Ht. congruence.
  - split; [exact H2|]. inversion H1; subst.
    apply andb_true_iff. split; apply str_eqb_eq; reflexivity.
Qed.

Lemma dedup_test_false sn tx es :
  existsb (fun r => str_eqb r.(student) sn && str_eqb r.(text) tx) es = false
  <-> (sn, tx) ∉ map entry_id es.
Proof. rewrite <- dedup_test_spec. symmetry. apply not_true_iff_false. Qed.

Lemma filter_absent (i : jsstring * jsstring) es :
  i ∉ map entry_id es -> filter (fun e => entry_id e = i) es = [].
Proof.
  induction es as [|e es IH]; cbn [map]; intros H; [reflexivity|].
  apply not_elem_of_cons in H as [Hne Hes].
  rewrite filter_cons_False by congruence. apply IH, Hes.
Qed.

(** In a bucket without duplicates a key that occurs, occurs once. *)
Lemma filter_present (i : jsstring * jsstring) es :
  bucket_ok es -> i ∈ map entry_id es ->
  length (filter (fun e => entry_id e = i) es) = 1%nat.
Proof.
  unfold bucket_ok. induction es as [|e es IH]; cbn [map]; intros Hnd Hin.
  - apply elem_of_nil in Hin. destruct Hin.
  - apply NoDup_cons in Hnd as [Hfresh Hnd].
    destruct (decide (entry_id e = i)) as [E|E].
    + rewrite filter_cons_True by exact E. subst i.
      rewrite filter_absent by exact Hfresh. reflexivity.
    + rewrite filter_cons_False by exact E.
      apply elem_of_cons in Hin as [Hin|Hin]; [congruence|]. apply IH; assumption.
Qed.

Lemma bucket_ok_snoc es e :
  bucket_ok es -> entry_id e ∉ map entry_id es -> bucket_ok (es ++ [e]).
Proof.
  unfold bucket_ok. intros Hnd Hfresh. rewrite map_app. cbn [map].
  apply NoDup_app. split; [exact Hnd|]. split.
  - intros x Hx Hx'. apply list_elem_of_singleton in Hx'. subst x. auto.
  - apply NoDup_singleton.
Qed.

Lemma buckets_ok_getArray st key : buckets_ok st -> bucket_ok (getArray st key).
Proof.
  intros H. unfold getArray. destruct (arrays st !! key) as [es|] eqn:E.
  - exact (H key es E).
  - apply NoDup_nil_2.
Qed.

Lemma buckets_ok_setArray st key es :
  buckets_ok st -> bucket_ok es -> buckets_ok (setArray st key es).
Proof.
  intros Hst Hes k es'. cbn [setArray arrays]. rewrite lookup_insert.
  case_decide; [intros [= <-]; exact Hes|apply Hst].
Qed.

Lemma buckets_ok_setItem st k v : buckets_ok st -> buckets_ok (setItem st k v).
Proof. intros H. exact H. Qed.

End Buckets.

(** ** Importing a payload, once and twice *)

Section ImportCommit.

Implicit Types (st : Storage) (p : jsstring) (L : Z).

Lemma import_commit st p L ig cs ts et sn mf rest t tx :
  split 124 p = ig :: cs :: ts :: et :: sn :: mf :: rest ->
  parseInt cs = Some L -> parseInt ts = Some t ->
  getGroupId st = Some ig ->
  decodeURIComponent et = Normal tx ->
  trim tx <> [] ->
  (sn, tx) ∉ map entry_id (getArray st (reflections_key ig L)) ->
  importPeerInsight st p L
  = (setArray st (reflections_key ig L)
       (getArray st (reflections_key ig L)
        ++ [{| text := tx; timestamp := t; student := sn;
               mastery := Some (str_eqb mf (str "M")) |}]),
     {| success := true; message := str "Peer insight added successfully!" |}).
Proof.
  intros Hs Hc Ht Hg Hd Htx Hnew.
  rewrite importPeerInsight_eq, Hs, Hc, Ht, Hg, Hd.
  rewrite bool_decide_eq_true_2 by reflexivity. rewrite Z.eqb_refl. cbn [negb].
  apply truthy_true in Htx. rewrite Htx. cbn [negb]. cbv zeta.
  apply dedup_test_false in Hnew. rewrite Hnew. reflexivity.
Qed.

Lemma import_duplicate st p L ig cs ts et sn mf rest t tx :
  split 124 p = ig :: cs :: ts :: et :: sn :: mf :: rest ->
  parseInt cs = Some L -> parseInt ts = Some t ->
  getGroupId st = Some ig ->
  decodeURIComponent et = Normal tx ->
  trim tx <> [] ->
  (sn, tx) ∈ map entry_id (getArray st (reflections_key ig L)) ->
  importPeerInsight st p L
  = (st, {| success := false; message := str "Already imported this insight." |}).
Proof.
  intros Hs Hc Ht Hg Hd Htx Hold.
  rewrite importPeerInsight_eq, Hs, Hc, Ht, Hg, Hd.
  rewrite bool_decide_eq_true_2 by reflexivity. rewrite Z.eqb_refl. cbn [negb].
  apply truthy_true in Htx. rewrite Htx. cbn [negb]. cbv zeta.
  apply dedup_test_spec in Hold. rewrite Hold. reflexivity.
Qed.

(** C4, as amended: a payload of at least six fields, with numeric lesson
    and timestamp, the importer's group, the importing lesson, and a text
    that decodes and is not empty after trimming, imported twice into a
    bucket that does not hold its (student, text) yet, succeeds the first
    time, is refused as already imported the second time without a change
    of the store, and the bucket then holds that pair exactly once. *)
Theorem C4_import_twice st p L ig cs ts et sn mf rest t tx :
  split 124 p = ig :: cs :: ts :: et :: sn :: mf :: rest ->
  parseInt cs = Some L -> parseInt ts = Some t ->
  getGroupId st = Some ig ->
  decodeURIComponent et = Normal tx ->
  trim tx <> [] ->
  (sn, tx) ∉ map entry_id (getArray st (reflections_key ig L)) ->
  let first := importPeerInsight st p L in
  let second := importPeerInsight (fst first) p L in
  snd first = {| success := true;
                 message := str "Peer insight added successfully!" |}
  /\ snd second = {| success := false;
                     message := str "Already imported this insight." |}
  /\ fst second = fst first
  /\ length (filter (fun e => entry_id e = (sn, tx))
               (getArray (fst second) (reflections_key ig L))) = 1%nat.
Proof.
  intros Hs Hc Ht Hg Hd Htx Hnew first second. subst first second.
  rewrite (import_commit st p L ig cs ts et sn mf rest t tx) by assumption.
  cbn [fst snd].
  rewrite (import_duplicate _ p L ig cs ts et sn mf rest t tx);
    try assumption.
  - cbn [fst snd]. repeat split.
    rewrite getArray_setArray_eq, filter_app, filter_absent by exact Hnew.
    rewrite filter_cons_True by reflexivity. reflexivity.
  - rewrite getArray_setArray_eq, map_app, elem_of_app. right.
    cbn [map]. apply list_elem_of_singleton. reflexivity.
Qed.

(** The same payload pasted twice into a fresh bucket. *)
Lemma C4_witness :
  let p := str "8B|3|1700000000000|Well%20done|Ama|M" in
  let first := importPeerInsight group_8B p 3 in
  let second := importPeerInsight (fst first) p 3 in
  snd first = {| success := true;
                 message := str "Peer insight added successfully!" |}
  /\ snd second = {| success := false;
                     message := str "Already imported this insight." |}
  /\ fst second = fst first
  /\ length (filter (fun e => entry_id e = (str "Ama", str "Well done"))
               (getArray (fst second) (reflections_key (str "8B") 3))) = 1%nat.
Proof.
  apply (C4_import_twice group_8B (str "8B|3|1700000000000|Well%20done|Ama|M") 3
           (str "8B") (str "3") (str "1700000000000") (str "Well%20done")
           (str "Ama") (str "M") [] 1700000000000%Z (str "Well done")).
  - reflexivity.
  - reflexivity.
  - reflexivity.
  - reflexivity.
  - reflexivity.
  - vm_compute. discriminate.
  - vm_compute. apply not_elem_of_nil.
Defined.

(** C4 as it is written fails on a store that already holds the entry:
    every condition the claim lists holds, and the first of the two calls
    is refused. *)
Lemma C4_counterexample :
  let p := str "8B|3|1700000000000|Well%20done|Ama|M" in
  let st := run empty_storage
              [OpSetGroupId (JString (str "8B")); OpImportPeerInsight p 3] in
  split 124 p = [str "8B"; str "3"; str "1700000000000"; str "Well%20done";
                 str "Ama"; str "M"]
  /\ parseInt (str "3") = Some 3%Z
  /\ parseInt (str "1700000000000") = Some 1700000000000%Z
  /\ getGroupId st = Some (str "8B")
  /\ decodeURIComponent (str "Well%20done") = Normal (str "Well done")
  /\ str "Well done" <> []
  /\ importPeerInsight st p 3
     = (st, {| success := false;
               message := str "Already imported this insight." |}).
Proof.
  repeat split; try reflexivity.
  vm_compute. discriminate.
Qed.

End ImportCommit.

(** ** From export to import *)

Section RoundTrip.

Implicit Types (st : Storage) (L now : Z) (g s t : jsstring).

(** The six fields of an exported payload come back from [split]. *)
Lemma split_payload g a b e s f :
  124 ∉ g -> 124 ∉ a -> 124 ∉ b -> 124 ∉ e -> 124 ∉ s -> 124 ∉ f ->
  split 124 (g ++ bar ++ a ++ bar ++ b ++ bar ++ e ++ bar ++ s ++ bar ++ f)
  = [g; a; b; e; s; f].
Proof.
  intros Hg Ha Hb He Hs Hf. change bar with [124]. cbn [app].
  rewrite !split_field by assumption. rewrite split_none by assumption.
  reflexivity.
Qed.




End RoundTrip.

(** ** Saving a reflection *)

Section Save.

Implicit Types (st : Storage) (L now : Z) (g t : jsstring).

Lemma author_eq st :
  author st = match getItem st STUDENT_NAME_KEY with
              | Some n => if truthy n then n else str "Anonymous"
              | None => str "Anonymous"
              end.
Proof. reflexivity. Qed.

(** A call of [saveReflectionToGroup] with an active group and a text that
    is not empty after trimming. *)
Lemma saveReflectionToGroup_active st now L g t :
  getGroupId st = Some g -> g <> [] -> trim t <> [] ->
  saveReflectionToGroup st now L (Some t)
  = if existsb (fun item => str_eqb item.(student) (author st)
                            && str_eqb item.(text) (trim t))
               (getArray st (reflections_key g L))
    then st
    else setArray st (reflections_key g L)
           (getArray st (reflections_key g L)
            ++ [{| text := trim t; timestamp := now; student := author st;
                   mastery := None |}]).
Proof.
  intros Hg Hgne Ht. unfold saveReflectionToGroup. rewrite Hg.
  apply truthy_true in Hgne, Ht. rewrite Hgne, Ht. cbn [negb orb]. cbv zeta.
  fold (author st).
  destruct (existsb _ (getArray st (reflections_key g L))); reflexivity.
Qed.

(** Any other call changes nothing. *)
Lemma saveReflectionToGroup_idle st now L o :
  (getGroupId st = None \/ getGroupId st = Some [] \/ o = None
   \/ exists t, o = Some t /\ trim t = []) ->
  saveReflectionToGroup st now L o = st.
Proof.
  unfold saveReflectionToGroup.
  intros [Hg | [Hg | [-> | (t & -> & Ht)]]].
  - rewrite Hg. reflexivity.
  - rewrite Hg. destruct o; reflexivity.
  - destruct (getGroupId st); reflexivity.
  - destruct (getGroupId st) as [g|]; [|reflexivity]. rewrite Ht.
    cbn [truthy negb]. rewrite orb_true_r. reflexivity.
Qed.

Lemma saveReflectionToGroup_cases st now L o :
  saveReflectionToGroup st now L o = st
  \/ exists g t,
       getGroupId st = Some g /\ g <> [] /\ o = Some t /\ trim t <> []
       /\ ((author st, trim t)
           ∉ map entry_id (getArray st (reflections_key g L)))
       /\ saveReflectionToGroup st now L o
          = setArray st (reflections_key g L)
              (getArray st (reflections_key g L)
               ++ [{| text := trim t; timestamp := now; student := author st;
                      mastery := None |}]).
Proof.
  destruct (getGroupId st) as [g|] eqn:Hg;
    [|left; apply saveReflectionToGroup_idle; auto].
  destruct g as [|c g];
    [left; apply saveReflectionToGroup_idle; auto|].
  destruct o as [t|]; [|left; apply saveReflectionToGroup_idle; auto].
  destruct (trim t) as [|d u] eqn:Ht;
    [left; apply saveReflectionToGroup_idle; eauto 6|].
  rewrite (saveReflectionToGroup_active st now L (c :: g) t)
    by (try assumption; try discriminate; rewrite Ht; discriminate).
  rewrite Ht.
  destruct (existsb _ (getArray st (reflections_key (c :: g) L))) eqn:Hex;
    [left; reflexivity|].
  right. exists (c :: g), t. rewrite Ht.
  repeat (split; [first [reflexivity|discriminate]|]).
  split; [|reflexivity]. apply dedup_test_false, Hex.
Qed.

Lemma saveReflectionToGroup_strings st now L o :
  strings (saveReflectionToGroup st now L o) = strings st.
Proof.
  destruct (saveReflectionToGroup_cases st now L o)
    as [-> | (g & t & _ & _ & _ & _ & _ & ->)]; reflexivity.
Qed.

Lemma importPeerInsight_strings st p L :
  strings (fst (importPeerInsight st p L)) = strings st.
Proof.
  destruct (importPeerInsight_cases st p L)
    as [[-> _] | (g & e & _ & _ & _ & ->)]; reflexivity.
Qed.

Lemma setGroupId_arrays st name : arrays (setGroupId st name) = arrays st.
Proof.
  destruct name as [| | | |s]; try reflexivity.
  cbn [setGroupId]. destruct (truthy (trim s)); reflexivity.
Qed.

(** After a save the bucket holds the author's trimmed text. *)
Lemma saveReflectionToGroup_present st now L g t :
  getGroupId st = Some g -> g <> [] -> trim t <> [] ->
  (author st, trim t)
  ∈ map entry_id (getArray (saveReflectionToGroup st now L (Some t))
                           (reflections_key g L)).
Proof.
  intros Hg Hgne Ht.
  rewrite (saveReflectionToGroup_active st now L g t) by assumption.
  destruct (existsb _ (getArray st (reflections_key g L))) eqn:Hex.
  - apply dedup_test_spec, Hex.
  - rewrite getArray_setArray_eq, map_app, elem_of_app. right.
    apply list_elem_of_singleton. reflexivity.
Qed.

Lemma saveReflectionToGroup_buckets_ok st now L o :
  buckets_ok st -> buckets_ok (saveReflectionToGroup st now L o).
Proof.
  intros Hok.
  destruct (saveReflectionToGroup_cases st now L o)
    as [-> | (g & t & _ & _ & _ & _ & Hnew & ->)]; [exact Hok|].
  apply buckets_ok_setArray; [exact Hok|].
  apply bucket_ok_snoc; [apply buckets_ok_getArray, Hok|exact Hnew].
Qed.

Lemma importPeerInsight_buckets_ok st p L :
  buckets_ok st -> buckets_ok (fst (importPeerInsight st p L)).
Proof.
  intros Hok.
  destruct (importPeerInsight_cases st p L)
    as [[-> _] | (g & e & _ & Hnew & _ & ->)]; [exact Hok|].
  apply buckets_ok_setArray; [exact Hok|].
  apply bucket_ok_snoc; [apply buckets_ok_getArray, Hok|].
  apply dedup_test_false in Hnew. exact Hnew.
Qed.

Lemma step_buckets_ok st o : buckets_ok st -> buckets_ok (step st o).
Proof.
  intros Hok. destruct o; cbn [step]; try exact Hok.
  - intros key es. rewrite setGroupId_arrays. apply Hok.
  - apply saveReflectionToGroup_buckets_ok, Hok.
  - apply importPeerInsight_buckets_ok, Hok.
Qed.

Lemma run_buckets_ok ops st : buckets_ok st -> buckets_ok (run st ops).
Proof.
  unfold run. revert st. induction ops as [|o ops IH]; intros st Hok; cbn [fold_left].
  - exact Hok.
  - apply IH, step_buckets_ok, Hok.
Qed.

Lemma empty_storage_buckets_ok : buckets_ok empty_storage.
Proof. intros key es H. cbn [empty_storage arrays] in H. rewrite lookup_empty in H. discriminate H. Qed.

Lemma texts_not_blank_setArray st key e :
  texts_not_blank st ->
  (forall e', e' ∈ getArray st key -> trim e'.(text) <> []) ->
  trim e.(text) <> [] ->
  texts_not_blank (setArray st key (getArray st key ++ [e])).
Proof.
  intros Hst Hold He k es' e'. cbn [setArray arrays]. rewrite lookup_insert.
  case_decide; [|apply Hst].
  intros [= <-] [Hin|Hin%list_elem_of_singleton]%elem_of_app;
    [apply Hold, Hin|subst; exact He].
Qed.

Lemma texts_not_blank_getArray st key e :
  texts_not_blank st -> e ∈ getArray st key -> trim e.(text) <> [].
Proof.
  intros Hst. unfold getArray. destruct (arrays st !! key) as [es|] eqn:E.
  - apply (Hst key es e E).
  - intros H. apply elem_of_nil in H. destruct H.
Qed.

(** Every text a session stores is non-empty, also after trimming. *)
Lemma step_texts_not_blank st o : texts_not_blank st -> texts_not_blank (step st o).
Proof.
  intros Hok. destruct o as [name|now L t| | |p L|name|L t]; cbn [step];
    try exact Hok.
  - intros key es. rewrite setGroupId_arrays. apply Hok.
  - destruct (saveReflectionToGroup_cases st now L t)
      as [-> | (g & u & _ & _ & _ & Hu & _ & ->)]; [exact Hok|].
    apply texts_not_blank_setArray; auto.
    + intros e'. apply texts_not_blank_getArray, Hok.
    + cbn [text]. rewrite trim_idempotent. exact Hu.
  - destruct (importPeerInsight_cases st p L)
      as [[-> _] | (g & e & _ & _ & He & ->)]; [exact Hok|].
    cbn [fst]. apply texts_not_blank_setArray; auto.
    + intros e'. apply texts_not_blank_getArray, Hok.
    + apply truthy_true, He.
Qed.

Lemma run_texts_not_blank ops st :
  texts_not_blank st -> texts_not_blank (run st ops).
Proof.
  unfold run. revert st. induction ops as [|o ops IH]; intros st Hok; cbn [fold_left].
  - exact Hok.
  - apply IH, step_texts_not_blank, Hok.
Qed.

(** C5: no bucket ever holds two entries with the same (student, text).
    The empty store has the property, [saveReflectionToGroup] and
    [importPeerInsight] keep it, so every session has it; and two saves by
    the same author of texts with the same trim leave that entry once. *)
Theorem C5_no_duplicate_entries :
  buckets_ok empty_storage
  /\ (forall st now L o,
        buckets_ok st -> buckets_ok (saveReflectionToGroup st now L o))
  /\ (forall st p L,
        buckets_ok st -> buckets_ok (fst (importPeerInsight st p L)))
  /\ (forall ops, buckets_ok (run empty_storage ops))
  /\ (forall st now1 now2 L g t1 t2,
        buckets_ok st ->
        getGroupId st = Some g -> g <> [] ->
        trim t1 <> [] -> trim t2 = trim t1 ->
        let st2 := saveReflectionToGroup
                     (saveReflectionToGroup st now1 L (Some t1))
                     now2 L (Some t2) in
        length (filter (fun e => entry_id e = (author st, trim t1))
                  (getArray st2 (reflections_key g L))) = 1%nat
        /\ (getArray st (reflections_key g L) = [] ->
            length (getArray st2 (reflections_key g L)) = 1%nat)).
Proof.
  split; [exact empty_storage_buckets_ok|].
  split; [exact saveReflectionToGroup_buckets_ok|].
  split; [exact importPeerInsight_buckets_ok|].
  split; [intros ops; apply run_buckets_ok, empty_storage_buckets_ok|].
  intros st now1 now2 L g t1 t2 Hok Hg Hgne Ht1 Ht2 st2. subst st2.
  set (st1 := saveReflectionToGroup st now1 L (Some t1)).
  assert (Hstr : strings st1 = strings st)
    by apply saveReflectionToGroup_strings.
  assert (Hg1 : getGroupId st1 = Some g)
    by (unfold getGroupId, getItem; rewrite Hstr; exact Hg).
  assert (Ha1 : author st1 = author st)
    by (unfold author, getItem; rewrite Hstr; reflexivity).
  assert (Hin1 : (author st, trim t1)
                 ∈ map entry_id (getArray st1 (reflections_key g L)))
    by (apply saveReflectionToGroup_present; assumption).
  assert (Hsame : saveReflectionToGroup st1 now2 L (Some t2) = st1).
  { rewrite (saveReflectionToGroup_active st1 now2 L g t2)
      by (try assumption; rewrite Ht2; exact Ht1).
    rewrite Ha1, Ht2. apply dedup_test_spec in Hin1. rewrite Hin1. reflexivity. }
  rewrite Hsame. split.
  - apply filter_present; [|exact Hin1].
    apply buckets_ok_getArray, saveReflectionToGroup_buckets_ok, Hok.
  - intros Hempty. subst st1.
    rewrite (saveReflectionToGroup_active st now1 L g t1) by assumption.
    rewrite Hempty. cbn [existsb]. rewrite getArray_setArray_eq. reflexivity.
Qed.

(** Two saves by Kofi of texts with the same trim. *)
Lemma C5_witness :
  let st2 := saveReflectionToGroup
               (saveReflectionToGroup kofi_device 1700000000000 3
                  (Some (str " Well done ")))
               1700000000001 3 (Some (str "Well done")) in
  length (filter (fun e => entry_id e = (author kofi_device, trim (str " Well done ")))
            (getArray st2 (reflections_key (str "8B") 3))) = 1%nat
  /\ (getArray kofi_device (reflections_key (str "8B") 3) = [] ->
      length (getArray st2 (reflections_key (str "8B") 3)) = 1%nat).
Proof.
  apply (proj2 (proj2 (proj2 (proj2 C5_no_duplicate_entries)))
           kofi_device 1700000000000%Z 1700000000001%Z 3%Z (str "8B")
           (str " Well done ") (str "Well done")).
  - apply (proj1 (proj2 (proj2 (proj2 C5_no_duplicate_entries)))).
  - reflexivity.
  - vm_compute. discriminate.
  - vm_compute. discriminate.
  - reflexivity.
Defined.

End Save.

(** ** Loading peer reflections *)

Section Load.

Implicit Types (st : Storage) (L now : Z) (g t : jsstring).








End Load.

(** ** The active group *)

Section Group.

Implicit Types (st : Storage) (L now : Z) (g t : jsstring).

Lemma setGroupId_ignored st name :
  (forall s, name = JString s -> trim s = []) -> setGroupId st name = st.
Proof.
  intros H. destruct name as [| | | |s]; try reflexivity.
  cbn [setGroupId]. rewrite (H s eq_refl). reflexivity.
Qed.

Lemma setGroupId_stored st s :
  trim s <> [] -> setGroupId st (JString s) = setItem st GROUP_KEY (trim s).
Proof.
  intros H. cbn [setGroupId]. apply truthy_true in H. rewrite H. reflexivity.
Qed.

Lemma group_ok_strings st st' : strings st' = strings st -> group_ok st -> group_ok st'.
Proof. unfold group_ok, getGroupId, getItem. intros ->. auto. Qed.

Lemma setGroupId_group_ok st name : group_ok st -> group_ok (setGroupId st name).
Proof.
  intros Hok. destruct name as [| | | |s]; try exact Hok.
  destruct (trim s) as [|c u] eqn:Ht.
  - rewrite setGroupId_ignored; [exact Hok|]. intros s' [= <-]. exact Ht.
  - rewrite setGroupId_stored by (rewrite Ht; discriminate).
    unfold group_ok, getGroupId. rewrite getItem_setItem_eq.
    split; [rewrite Ht; discriminate|apply trim_idempotent].
Qed.

Lemma setItem_group_ok st k v :
  k <> GROUP_KEY -> group_ok st -> group_ok (setItem st k v).
Proof.
  intros Hk. unfold group_ok, getGroupId.
  rewrite getItem_setItem_ne by exact Hk. auto.
Qed.

Lemma step_group_ok st o : group_ok st -> group_ok (step st o).
Proof.
  intros Hok. destruct o; cbn [step]; try exact Hok.
  - apply setGroupId_group_ok, Hok.
  - eapply group_ok_strings; [apply saveReflectionToGroup_strings|exact Hok].
  - eapply group_ok_strings; [apply importPeerInsight_strings|exact Hok].
  - apply setItem_group_ok; [apply student_name_key_not_group|exact Hok].
  - apply setItem_group_ok; [apply draft_key_not_group|exact Hok].
Qed.

Lemma run_group_ok ops st : group_ok st -> group_ok (run st ops).
Proof.
  unfold run. revert st. induction ops as [|o ops IH]; intros st Hok; cbn [fold_left].
  - exact Hok.
  - apply IH, step_group_ok, Hok.
Qed.

(** C9: [setGroupId] changes nothing for a name that is not a string or
    that trims to the empty string; otherwise it stores the trimmed name
    in the one group slot, whatever was there, and leaves every other
    string slot and every bucket as they were.  So after any session the
    active group is absent, or it is non-empty and equal to its trim. *)
Theorem C9_setGroupId :
  (forall st name,
     (forall s, name = JString s -> trim s = []) -> setGroupId st name = st)
  /\ (forall st s,
        trim s <> [] ->
        getGroupId (setGroupId st (JString s)) = Some (trim s)
        /\ (forall key, key <> GROUP_KEY ->
              getItem (setGroupId st (JString s)) key = getItem st key)
        /\ arrays (setGroupId st (JString s)) = arrays st)
  /\ (forall ops, group_ok (run empty_storage ops))
  /\ (forall st ops, group_ok st -> group_ok (run st ops)).
Proof.
  split; [exact setGroupId_ignored|]. split; [|split].
  - intros st s Hs. rewrite setGroupId_stored by exact Hs.
    split; [apply getItem_setItem_eq|]. split; [|reflexivity].
    intros key Hkey. apply getItem_setItem_ne. congruence.
  - intros ops. apply run_group_ok. exact I.
  - intros st ops. apply run_group_ok.
Qed.

(** Blank and non-string names are ignored; a padded name is stored trimmed. *)
Lemma C9_witness :
  setGroupId kofi_device (JString (str "   ")) = kofi_device
  /\ setGroupId kofi_device (JNumber 8) = kofi_device
  /\ getGroupId (setGroupId kofi_device (JString (str " 7A "))) = Some (str "7A")
  /\ group_ok (run kofi_device [OpSetGroupId (JString (str " 7A "))]).
Proof.
  split; [|split; [|split]].
  - apply (proj1 C9_setGroupId). intros s [= <-]. reflexivity.
  - apply (proj1 C9_setGroupId). intros s H. discriminate H.
  - apply (proj1 (proj2 C9_setGroupId) kofi_device (str " 7A ")).
    vm_compute. discriminate.
  - apply (proj2 (proj2 (proj2 C9_setGroupId))).
    vm_compute. split; [discriminate|reflexivity].
Defined.

End Group.

(** ** What an import stores *)

Section StoredText.

(** C6 at a payload whose text field decodes to a text with a leading
    space: the import succeeds and the stored text is not its own trim,
    whereas [saveReflectionToGroup] stores the trimmed text. *)
Theorem C6_import_stores_untrimmed_text :
  let st := setGroupId empty_storage (JString (str "8B")) in
  let result := importPeerInsight st (str "8B|3|1700000000000|%20hi|Kofi|M") 3 in
  success (snd result) = true
  /\ getArray (fst result) (reflections_key (str "8B") 3)
     = [{| text := str " hi"; timestamp := 1700000000000; student := str "Kofi";
           mastery := Some true |}]
  /\ trim (str " hi") = str "hi"
  /\ trim (str " hi") <> str " hi".
Proof.
  cbv zeta. split; [reflexivity|]. split; [reflexivity|].
  split; [reflexivity|]. vm_compute. discriminate.
Qed.

End StoredText.

(** * Further properties of js/groupManager.js *)

Section SaveAndLoad.

Implicit Types (st : Storage) (L now : Z) (g t : jsstring).

Lemma loadPeerReflections_inactive st L :
  getGroupId st = None \/ getGroupId st = Some [] ->
  loadPeerReflections st L = [].
Proof. intros [H|H]; unfold loadPeerReflections; rewrite H; reflexivity. Qed.

(** What [loadPeerReflections] returns depends on the string slots and on
    the one bucket it reads. *)
Lemma loadPeerReflections_ext st st' L :
  strings st' = strings st ->
  (forall g, getGroupId st = Some g ->
             getArray st' (reflections_key g L) = getArray st (reflections_key g L)) ->
  loadPeerReflections st' L = loadPeerReflections st L.
Proof.
  intros Hstr Hbucket. unfold loadPeerReflections, getGroupId, getItem in *.
  rewrite Hstr. destruct (strings st !! GROUP_KEY) as [g|]; [|reflexivity].
  rewrite (Hbucket g eq_refl). reflexivity.
Qed.

(** X1: [saveReflectionToGroup] changes nothing without an active group,
    without a text, or for a text that is blank; otherwise it leaves every
    string slot and every bucket but the one of (active group, chapter) as
    they were, and that bucket it leaves or extends by one entry. *)
Theorem saveReflectionToGroup_frame st now L o :
  ((getGroupId st = None \/ getGroupId st = Some [] \/ o = None
    \/ exists t, o = Some t /\ trim t = []) ->
   saveReflectionToGroup st now L o = st)
  /\ strings (saveReflectionToGroup st now L o) = strings st
  /\ (forall key,
        (forall g, getGroupId st = Some g -> key <> reflections_key g L) ->
        arrays (saveReflectionToGroup st now L o) !! key = arrays st !! key)
  /\ (forall g, getGroupId st = Some g ->
        getArray (saveReflectionToGroup st now L o) (reflections_key g L)
        = getArray st (reflections_key g L)
        \/ exists e,
             getArray (saveReflectionToGroup st now L o) (reflections_key g L)
             = getArray st (reflections_key g L) ++ [e]).
Proof.
  split; [apply saveReflectionToGroup_idle|].
  split; [apply saveReflectionToGroup_strings|].
  destruct (saveReflectionToGroup_cases st now L o)
    as [-> | (g & t & Hg & _ & _ & _ & _ & ->)].
  - split; [reflexivity|]. intros g _. left. reflexivity.
  - split.
    + intros key Hkey. cbn [setArray arrays]. apply lookup_insert_ne.
      intros E. apply (Hkey g Hg). symmetry. exact E.
    + intros g' Hg'. assert (g' = g) by congruence. subst g'. right.
      eexists. apply getArray_setArray_eq.
Qed.

(** The four ways of doing nothing. *)
Lemma saveReflectionToGroup_frame_witness :
  saveReflectionToGroup empty_storage 1700000000000 3 (Some (str "hi"))
  = empty_storage
  /\ saveReflectionToGroup kofi_device 1700000000000 3 (Some (str "  "))
     = kofi_device
  /\ saveReflectionToGroup kofi_device 1700000000000 3 None = kofi_device.
Proof.
  split; [|split].
  - apply (proj1 (saveReflectionToGroup_frame empty_storage 1700000000000 3
                    (Some (str "hi")))).
    left. reflexivity.
  - apply (proj1 (saveReflectionToGroup_frame kofi_device 1700000000000 3
                    (Some (str "  ")))).
    right. right. right. exists (str "  "). split; reflexivity.
  - apply (proj1 (saveReflectionToGroup_frame kofi_device 1700000000000 3 None)).
    right. right. left. reflexivity.
Defined.

Lemma author_named st n :
  getItem st STUDENT_NAME_KEY = Some n -> n <> [] -> author st = n.
Proof.
  intros Hn Hne. unfold author. rewrite Hn.
  apply truthy_true in Hne. rewrite Hne. reflexivity.
Qed.

Lemma peer_filter_app (myName : option jsstring) (es es' : list ReflectionEntry) :
  List.filter (fun r => negb (bool_decide (Some r.(student) = myName))) (es ++ es')
  = List.filter (fun r => negb (bool_decide (Some r.(student) = myName))) es
    ++ List.filter (fun r => negb (bool_decide (Some r.(student) = myName))) es'.
Proof. apply List.filter_app. Qed.

Lemma loadPeerReflections_snoc st L g e :
  getGroupId st = Some g -> g <> [] ->
  loadPeerReflections
    (setArray st (reflections_key g L) (getArray st (reflections_key g L) ++ [e])) L
  = loadPeerReflections st L
    ++ (if bool_decide (Some e.(student) = getItem st STUDENT_NAME_KEY) then []
        else [e]).
Proof.
  intros Hg Hgne. unfold loadPeerReflections.
  change (getGroupId (setArray st _ _)) with (getGroupId st).
  change (getItem (setArray st ?k ?v) ?k') with (getItem st k').
  rewrite Hg. apply truthy_true in Hgne. rewrite Hgne. cbn [negb]. cbv zeta.
  rewrite getArray_setArray_eq, peer_filter_app. f_equal.
  cbn [List.filter].
  destruct (bool_decide (Some (student e) = getItem st STUDENT_NAME_KEY));
    reflexivity.
Qed.

(** X2: for a user with a stored, non-empty display name, saving a
    reflection never changes what [loadPeerReflections] returns, for any
    lesson: the own entry is filtered out. *)
Theorem own_save_is_not_a_peer_reflection st now L L' o n :
  getItem st STUDENT_NAME_KEY = Some n -> n <> [] ->
  loadPeerReflections (saveReflectionToGroup st now L o) L'
  = loadPeerReflections st L'.
Proof.
  intros Hn Hne.
  destruct (saveReflectionToGroup_cases st now L o)
    as [-> | (g & t & Hg & Hgne & _ & _ & _ & ->)]; [reflexivity|].
  destruct (decide (L' = L)) as [->|HL].
  - rewrite loadPeerReflections_snoc by assumption. cbn [student].
    rewrite (author_named st n Hn Hne), Hn.
    rewrite bool_decide_eq_true_2 by reflexivity. apply app_nil_r.
  - apply loadPeerReflections_ext; [reflexivity|].
    intros g' Hg'. apply getArray_setArray_ne.
    intros E%reflections_key_inj. destruct E. congruence.
Qed.

Lemma own_save_is_not_a_peer_reflection_witness :
  loadPeerReflections
    (saveReflectionToGroup kofi_device 1700000000000 3 (Some (str "Well done"))) 3
  = loadPeerReflections kofi_device 3.
Proof.
  apply (own_save_is_not_a_peer_reflection kofi_device 1700000000000 3 3
           (Some (str "Well done")) (str "Kofi")).
  - reflexivity.
  - vm_compute. discriminate.
Defined.

(** X3: without a stored display name the entry is saved under
    ["Anonymous"], and [loadPeerReflections] returns it after the entries
    it returned before: the user finds the own reflection among the
    peers'. *)
Theorem anonymous_save_is_listed st now L g t :
  getItem st STUDENT_NAME_KEY = None ->
  getGroupId st = Some g -> g <> [] -> trim t <> [] ->
  (str "Anonymous", trim t) ∉ map entry_id (getArray st (reflections_key g L)) ->
  loadPeerReflections (saveReflectionToGroup st now L (Some t)) L
  = loadPeerReflections st L
    ++ [{| text := trim t; timestamp := now; student := str "Anonymous";
           mastery := None |}].
Proof.
  intros Hn Hg Hgne Ht Hnew.
  assert (Ha : author st = str "Anonymous") by (unfold author; rewrite Hn; reflexivity).
  rewrite (saveReflectionToGroup_active st now L g t) by assumption.
  rewrite Ha. apply dedup_test_false in Hnew. rewrite Hnew.
  rewrite loadPeerReflections_snoc by assumption. rewrite Hn. reflexivity.
Qed.

Lemma anonymous_save_is_listed_witness :
  loadPeerReflections
    (saveReflectionToGroup group_8B 1700000000000 3 (Some (str " Well done "))) 3
  = loadPeerReflections group_8B 3
    ++ [{| text := trim (str " Well done "); timestamp := 1700000000000;
           student := str "Anonymous"; mastery := None |}].
Proof.
  apply (anonymous_save_is_listed group_8B 1700000000000 3 (str "8B")
           (str " Well done ")).
  - reflexivity.
  - reflexivity.
  - vm_compute. discriminate.
  - vm_compute. discriminate.
  - vm_compute. apply not_elem_of_nil.
Defined.

(** X4: what is saved or imported for one lesson does not change what
    [loadPeerReflections] returns for another lesson. *)
Theorem other_lesson_is_untouched st now L L' o p :
  L' <> L ->
  loadPeerReflections (saveReflectionToGroup st now L o) L'
  = loadPeerReflections st L'
  /\ loadPeerReflections (fst (importPeerInsight st p L)) L'
     = loadPeerReflections st L'.
Proof.
  intros HL. split.
  - destruct (saveReflectionToGroup_cases st now L o)
      as [-> | (g & t & Hg & _ & _ & _ & _ & ->)]; [reflexivity|].
    apply loadPeerReflections_ext; [reflexivity|].
    intros g' Hg'. apply getArray_setArray_ne.
    intros E%reflections_key_inj. destruct E. congruence.
  - destruct (importPeerInsight_cases st p L)
      as [[-> _] | (g & e & Hg & _ & _ & ->)]; [reflexivity|].
    cbn [fst]. apply loadPeerReflections_ext; [reflexivity|].
    intros g' Hg'. apply getArray_setArray_ne.
    intros E%reflections_key_inj. destruct E. congruence.
Qed.

Lemma other_lesson_is_untouched_witness :
  loadPeerReflections
    (saveReflectionToGroup group_8B 1700000000000 3 (Some (str "Well done"))) 4
  = loadPeerReflections group_8B 4
  /\ loadPeerReflections
       (fst (importPeerInsight group_8B
               (str "8B|3|1700000000000|Well%20done|Ama|M") 3)) 4
     = loadPeerReflections group_8B 4.
Proof.
  apply (other_lesson_is_untouched group_8B 1700000000000 3 4
           (Some (str "Well done")) (str "8B|3|1700000000000|Well%20done|Ama|M")).
  lia.
Defined.

(** X5: leaving a group and coming back restores the store: after
    [setGroupId other] and [setGroupId g], with [g] the trimmed group that
    was active, the store is what it was, with all its buckets. *)
Theorem group_switch_round_trip st g (other : js_value) :
  getGroupId st = Some g -> g <> [] -> trim g = g ->
  setGroupId (setGroupId st other) (JString g) = st.
Proof.
  intros Hg Hgne Htrim.
  assert (Hback : forall st', strings st' = <[GROUP_KEY := g]> (strings st') ->
                              setGroupId st' (JString g) = st').
  { intros st' E. cbn [setGroupId]. rewrite Htrim.
    apply truthy_true in Hgne. rewrite Hgne. unfold setItem.
    rewrite <- E. destruct st'; reflexivity. }
  assert (Hid : <[GROUP_KEY := g]> (strings st) = strings st)
    by (apply insert_id; exact Hg).
  destruct other as [| | | |s]; try (apply Hback; symmetry; exact Hid).
  cbn [setGroupId]. destruct (truthy (trim s));
    [|apply Hback; symmetry; exact Hid].
  cbn [setGroupId]. rewrite Htrim.
  apply truthy_true in Hgne. rewrite Hgne. unfold setItem. cbn [strings arrays].
  rewrite insert_insert_eq, Hid. destruct st; reflexivity.
Qed.

Lemma group_switch_round_trip_witness :
  setGroupId (setGroupId kofi_device (JString (str " 7A "))) (JString (str "8B"))
  = kofi_device.
Proof.
  apply (group_switch_round_trip kofi_device (str "8B") (JString (str " 7A "))).
  - reflexivity.
  - vm_compute. discriminate.
  - reflexivity.
Defined.

End SaveAndLoad.

Section ImportMore.

Implicit Types (st : Storage) (L now : Z) (g t p : jsstring).

(** X6: a payload for the importer's group but for another lesson is
    refused with both lessons in the message, each shown one higher than
    its index, and the store is unchanged.  Both lessons, the pasted one
    and the importer's, are in the safe-integer range, where the
    comparison, the addition and the printing of the runtime are exact. *)
Theorem lesson_gate st p L ig cs ts et sn mf rest c tm :
  split 124 p = ig :: cs :: ts :: et :: sn :: mf :: rest ->
  parseInt cs = Some c -> parseInt ts = Some tm ->
  getGroupId st = Some ig ->
  safe_integer c -> safe_integer L ->
  c <> L ->
  importPeerInsight st p L
  = (st, {| success := false;
            message := str "This insight is from Lesson "
                       ++ number_to_string (c + 1)
                       ++ str ", but you're on Lesson "
                       ++ number_to_string (L + 1) ++ str "." |}).
Proof.
  intros Hs Hc Ht Hg _ _ Hne. rewrite importPeerInsight_eq, Hs, Hc, Ht, Hg.
  rewrite bool_decide_eq_true_2 by reflexivity. cbn [negb].
  destruct (Z.eqb_spec c L) as [E|_]; [contradiction|]. reflexivity.
Qed.

Lemma lesson_gate_witness :
  importPeerInsight group_8B (str "8B|4|1700000000000|hi|Ama|M") 3
  = (group_8B,
     {| success := false;
        message := str "This insight is from Lesson " ++ number_to_string (4 + 1)
                   ++ str ", but you're on Lesson " ++ number_to_string (3 + 1)
                   ++ str "." |}).
Proof.
  apply (lesson_gate group_8B (str "8B|4|1700000000000|hi|Ama|M") 3
           (str "8B") (str "4") (str "1700000000000") (str "hi") (str "Ama")
           (str "M") [] 4%Z 1700000000000%Z).
  - reflexivity.
  - reflexivity.
  - reflexivity.
  - reflexivity.
  - unfold safe_integer. lia.
  - unfold safe_integer. lia.
  - lia.
Defined.

(** Splitting after a separator splits both sides. *)
Lemma split_app_separator sep (a b : jsstring) :
  split sep (a ++ sep :: b) = split sep a ++ split sep b.
Proof.
  induction a as [|c a IH]; cbn [app split].
  - rewrite N.eqb_refl. reflexivity.
  - destruct (c =? sep); [rewrite IH; reflexivity|]. rewrite IH.
    pose proof (split_nonempty sep a) as Hne.
    destruct (split sep a) as [|f fs]; [contradiction|]. reflexivity.
Qed.

(** X7: fields after the sixth are ignored: a payload of at least six
    fields imports the same with any further [|]-separated text after
    it. *)
Theorem trailing_fields_are_ignored st p L (x : jsstring) :
  (6 <= length (split 124 p))%nat ->
  importPeerInsight st (p ++ bar ++ x) L = importPeerInsight st p L.
Proof.
  intros Hlen. rewrite !importPeerInsight_eq.
  change (p ++ bar ++ x) with (p ++ 124 :: x). rewrite split_app_separator.
  destruct (split 124 p) as [|f1 [|f2 [|f3 [|f4 [|f5 [|f6 rest]]]]]];
    cbn [length] in Hlen; try lia.
  reflexivity.
Qed.

Lemma trailing_fields_are_ignored_witness :
  importPeerInsight group_8B
    (str "8B|3|1700000000000|hi|Ama|M" ++ bar ++ str "sent from my phone|x") 3
  = importPeerInsight group_8B (str "8B|3|1700000000000|hi|Ama|M") 3.
Proof.
  apply (trailing_fields_are_ignored group_8B
           (str "8B|3|1700000000000|hi|Ama|M") 3 (str "sent from my phone|x")).
  vm_compute. lia.
Defined.



(** X9: the two writers share one dedup key.  After a save, a payload that
    carries the author and the trimmed text for the same group and lesson
    is refused as already imported; after a successful import, a save by a
    user of the imported student name, of a text whose trim is the imported
    text, changes nothing. *)
Theorem save_and_import_deduplicate_each_other :
  (forall st now L g t p cs ts et mf rest tm,
     getGroupId st = Some g -> g <> [] -> trim t <> [] ->
     split 124 p = g :: cs :: ts :: et :: author st :: mf :: rest ->
     parseInt cs = Some L -> parseInt ts = Some tm ->
     decodeURIComponent et = Normal (trim t) ->
     importPeerInsight (saveReflectionToGroup st now L (Some t)) p L
     = (saveReflectionToGroup st now L (Some t),
        {| success := false; message := str "Already imported this insight." |}))
  /\ (forall st now L p ig cs ts et sn mf rest tm tx t,
        split 124 p = ig :: cs :: ts :: et :: sn :: mf :: rest ->
        parseInt cs = Some L -> parseInt ts = Some tm ->
        getGroupId st = Some ig ->
        decodeURIComponent et = Normal tx ->
        trim tx <> [] ->
        (sn, tx) ∉ map entry_id (getArray st (reflections_key ig L)) ->
        author st = sn -> trim t = tx ->
        saveReflectionToGroup (fst (importPeerInsight st p L)) now L (Some t)
        = fst (importPeerInsight st p L)).
Proof.
  split.
  - intros st now L g t p cs ts et mf rest tm Hg Hgne Ht Hs Hc Hts Hd.
    set (st1 := saveReflectionToGroup st now L (Some t)).
    assert (Hstr : strings st1 = strings st) by apply saveReflectionToGroup_strings.
    apply (import_duplicate st1 p L g cs ts et (author st) mf rest tm (trim t));
      try assumption.
    + unfold getGroupId, getItem. rewrite Hstr. exact Hg.
    + rewrite trim_idempotent. exact Ht.
    + apply saveReflectionToGroup_present; assumption.
  - intros st now L p ig cs ts et sn mf rest tm tx t
           Hs Hc Hts Hg Hd Htx Hnew Ha Ht.
    rewrite (import_commit st p L ig cs ts et sn mf rest tm tx) by assumption.
    cbn [fst]. set (key := reflections_key ig L).
    set (st1 := setArray st key _).
    destruct ig as [|c ig'].
    { apply saveReflectionToGroup_idle. right. left. exact Hg. }
    rewrite (saveReflectionToGroup_active st1 now L (c :: ig') t);
      [|exact Hg|discriminate|].
    2:{ rewrite Ht. intros E. rewrite E in Htx. apply Htx. reflexivity. }
    change (author st1) with (author st). rewrite Ha, Ht.
    assert (Hin : (sn, tx) ∈ map entry_id (getArray st1 (reflections_key (c :: ig') L))).
    { subst st1 key. rewrite getArray_setArray_eq, map_app, elem_of_app. right.
      apply list_elem_of_singleton. reflexivity. }
    apply dedup_test_spec in Hin. rewrite Hin. reflexivity.
Qed.

Lemma save_and_import_deduplicate_each_other_witness :
  importPeerInsight
    (saveReflectionToGroup kofi_device 1700000000000 3 (Some (str " Well done ")))
    (str "8B|3|1700000000555|Well%20done|Kofi|N") 3
  = (saveReflectionToGroup kofi_device 1700000000000 3 (Some (str " Well done ")),
     {| success := false; message := str "Already imported this insight." |})
  /\ saveReflectionToGroup
       (fst (importPeerInsight kofi_device
               (str "8B|3|1700000000555|Well%20done|Kofi|N") 3))
       1700000000000 3 (Some (str " Well done "))
     = fst (importPeerInsight kofi_device
              (str "8B|3|1700000000555|Well%20done|Kofi|N") 3).
Proof.
  split.
  - apply (proj1 save_and_import_deduplicate_each_other kofi_device
             1700000000000%Z 3%Z (str "8B") (str " Well done ")
             (str "8B|3|1700000000555|Well%20done|Kofi|N") (str "3")
             (str "1700000000555") (str "Well%20done") (str "N") []
             1700000000555%Z).
    + reflexivity.
    + vm_compute. discriminate.
    + vm_compute. discriminate.
    + reflexivity.
    + reflexivity.
    + reflexivity.
    + reflexivity.
  - apply (proj2 save_and_import_deduplicate_each_other kofi_device
             1700000000000%Z 3%Z (str "8B|3|1700000000555|Well%20done|Kofi|N")
             (str "8B") (str "3") (str "1700000000555") (str "Well%20done")
             (str "Kofi") (str "N") [] 1700000000555%Z (str "Well done")
             (str " Well done ")).
    + reflexivity.
    + reflexivity.
    + reflexivity.
    + reflexivity.
    + reflexivity.
    + vm_compute. discriminate.
    + vm_compute. apply not_elem_of_nil.
    + reflexivity.
    + reflexivity.
Defined.

End ImportMore.

Section ExportMore.

Implicit Types (st : Storage) (L now : Z) (g s t p : jsstring).



Lemma mastery_flag_no_bar m : 124 ∉ mastery_flag m.
Proof.
  destruct m; vm_compute; intros H; inversion H; subst;
    match goal with H : _ ∈ [] |- _ => inversion H end.
Qed.

(** The payload [exportInsightPayload] builds when nothing is missing. *)
Lemma exportInsightPayload_complete st now L m g s t e :
  getGroupId st = Some g ->
  getItem st STUDENT_NAME_KEY = Some s ->
  getItem st (draft_key L) = Some t ->
  g <> [] -> s <> [] -> t <> [] ->
  encodeURIComponent (trim t) = Normal e ->
  exportInsightPayload st now L m
  = Normal (Some (g ++ bar ++ number_to_string L ++ bar ++ number_to_string now
                  ++ bar ++ e ++ bar ++ s ++ bar ++ mastery_flag m)).
Proof.
  intros Hg Hs Ht Hgne Hsne Htne He. unfold exportInsightPayload.
  rewrite Hg, Hs, Ht. apply truthy_true in Hgne, Hsne, Htne.
  rewrite Hgne, Hsne, Htne. cbn [negb orb]. rewrite He. cbn [cbind].
  destruct m; reflexivity.
Qed.

(** X10: for a group and a student name without [|], the exported payload
    splits into exactly six fields: group, lesson, clock value, escaped
    trimmed text, student name, and [M] or [N]. *)
Theorem exported_payload_has_six_fields st now L m g s t e :
  getGroupId st = Some g ->
  getItem st STUDENT_NAME_KEY = Some s ->
  getItem st (draft_key L) = Some t ->
  g <> [] -> s <> [] -> t <> [] ->
  124 ∉ g -> 124 ∉ s ->
  encodeURIComponent (trim t) = Normal e ->
  exists p,
    exportInsightPayload st now L m = Normal (Some p)
    /\ split 124 p
       = [g; number_to_string L; number_to_string now; e; s;
          if m then str "M" else str "N"].
Proof.
  intros Hg Hs Ht Hgne Hsne Htne Hgbar Hsbar He.
  eexists. split.
  - apply (exportInsightPayload_complete st now L m g s t e); assumption.
  - apply split_payload;
      [exact Hgbar|apply number_to_string_no_bar|apply number_to_string_no_bar
      |eapply encodeURIComponent_no_bar, He|exact Hsbar|apply mastery_flag_no_bar].
Qed.

Lemma exported_payload_has_six_fields_witness :
  exists p,
    exportInsightPayload ama_device 1700000000000 3 true = Normal (Some p)
    /\ split 124 p
       = [str "8B"; number_to_string 3; number_to_string 1700000000000;
          str "Hello%2C%20it's%20great!"; str "Ama"; str "M"].
Proof.
  apply (exported_payload_has_six_fields ama_device 1700000000000 3 true
           (str "8B") (str "Ama") (str "Hello, it's great! ")
           (str "Hello%2C%20it's%20great!")).
  - reflexivity.
  - reflexivity.
  - reflexivity.
  - vm_compute. discriminate.
  - vm_compute. discriminate.
  - vm_compute. discriminate.
  - apply (bool_decide_unpack _). vm_compute. exact I.
  - apply (bool_decide_unpack _). vm_compute. exact I.
  - reflexivity.
Defined.

(** X11: for a group name and a student name without [|], and a lesson
    and a clock value in the safe-integer range: a draft that is not
    empty but blank is exported, the payload splits into six fields of
    which the text field is empty, and every importer of the group
    refuses the payload for its empty reflection text and keeps its
    store. *)
Theorem blank_draft_exports_a_refused_payload
  (exporter importer : Storage) now L m g s t :
  getGroupId exporter = Some g ->
  getItem exporter STUDENT_NAME_KEY = Some s ->
  getItem exporter (draft_key L) = Some t ->
  getGroupId importer = Some g ->
  g <> [] -> s <> [] -> t <> [] -> trim t = [] ->
  124 ∉ g -> 124 ∉ s ->
  safe_integer L -> safe_integer now ->
  exists p,
    exportInsightPayload exporter now L m = Normal (Some p)
    /\ split 124 p
       = [g; number_to_string L; number_to_string now; []; s;
          if m then str "M" else str "N"]
    /\ importPeerInsight importer p L
       = (importer,
          {| success := false; message := str "Empty reflection text." |}).
Proof.
  intros Hg Hs Ht Hg' Hgne Hsne Htne Hblank Hgbar Hsbar _ _.
  assert (Hsplit :
            split 124 (g ++ bar ++ number_to_string L ++ bar
                       ++ number_to_string now ++ bar ++ [] ++ bar ++ s
                       ++ bar ++ mastery_flag m)
            = [g; number_to_string L; number_to_string now; []; s;
               mastery_flag m]).
  { apply split_payload;
      [exact Hgbar|apply number_to_string_no_bar|apply number_to_string_no_bar
      |apply not_elem_of_nil|exact Hsbar|apply mastery_flag_no_bar]. }
  eexists. split; [|split].
  - apply (exportInsightPayload_complete exporter now L m g s t []);
      try assumption.
    rewrite Hblank. reflexivity.
  - rewrite Hsplit. destruct m; reflexivity.
  - rewrite importPeerInsight_eq, Hsplit.
    rewrite !parseInt_number_to_string, Hg'.
    rewrite bool_decide_eq_true_2 by reflexivity. rewrite Z.eqb_refl.
    reflexivity.
Qed.

Lemma blank_draft_exports_a_refused_payload_witness :
  exists p,
    exportInsightPayload (setItem kofi_device (draft_key 3) (str "  "))
                         1700000000000 3 false
    = Normal (Some p)
    /\ split 124 p
       = [str "8B"; number_to_string 3; number_to_string 1700000000000; [];
          str "Kofi"; str "N"]
    /\ importPeerInsight group_8B p 3
       = (group_8B,
          {| success := false; message := str "Empty reflection text." |}).
Proof.
  apply (blank_draft_exports_a_refused_payload
           (setItem kofi_device (draft_key 3) (str "  ")) group_8B
           1700000000000 3 false (str "8B") (str "Kofi") (str "  ")).
  - reflexivity.
  - reflexivity.
  - reflexivity.
  - reflexivity.
  - vm_compute. discriminate.
  - vm_compute. discriminate.
  - vm_compute. discriminate.
  - reflexivity.
  - apply (bool_decide_unpack _). vm_compute. exact I.
  - apply (bool_decide_unpack _). vm_compute. exact I.
  - unfold safe_integer. lia.
  - unfold safe_integer. lia.
Defined.

End ExportMore.

(** * Properties of js/chatLogic.js *)

Section Unwrap.

Implicit Types (s r p q tail : jsstring) (c : N).

Lemma strip_prefix_app p r : strip_prefix p (p ++ r) = Some r.
Proof.
  induction p as [|a p IH]; cbn [app strip_prefix]; [destruct r; reflexivity|].
  rewrite N.eqb_refl. exact IH.
Qed.

Lemma strip_prefix_Some p s r : strip_prefix p s = Some r -> s = p ++ r.
Proof.
  revert s. induction p as [|a p IH]; intros [|b s]; cbn [strip_prefix app];
    try discriminate.
  - intros [= <-]. reflexivity.
  - intros [= <-]. reflexivity.
  - destruct (N.eqb_spec a b) as [->|]; [|discriminate].
    intros H. rewrite (IH s H). reflexivity.
Qed.

(** [contains] is the occurrence of a substring. *)
Lemma contains_spec p s :
  contains p s = true <-> exists a b, s = a ++ p ++ b.
Proof.
  split.
  - induction s as [|c s IH]; cbn [contains].
    + destruct (strip_prefix p []) as [r|] eqn:E; [|discriminate].
      intros _. exists [], r. cbn [app]. exact (strip_prefix_Some _ _ _ E).
    + destruct (strip_prefix p (c :: s)) as [r|] eqn:E.
      * intros _. exists [], r. cbn [app]. exact (strip_prefix_Some _ _ _ E).
      * intros H. destruct (IH H) as (a & b & ->). exists (c :: a), b. reflexivity.
  - intros (a & b & ->). induction a as [|c a IH]; cbn [app].
    + destruct (p ++ b) as [|c r] eqn:E; cbn [contains]; rewrite <- E;
        rewrite strip_prefix_app; reflexivity.
    + cbn [contains]. destruct (strip_prefix p (c :: a ++ p ++ b)); [reflexivity|].
      exact IH.
Qed.

Lemma line_of_line q tail : 10 ∉ q -> line_of (q ++ 10 :: tail) = q.
Proof.
  induction q as [|c q IH]; intros H; cbn [app line_of]; [reflexivity|].
  apply not_elem_of_cons in H as [Hc Hq].
  destruct (N.eqb_spec c 10); [congruence|]. rewrite (IH Hq). reflexivity.
Qed.

Lemma capture_here_not_newline c r : c <> 10 -> capture_here (c :: r) = None.
Proof.
  intros Hc. unfold capture_here. destruct r as [|b [|d r']]; try reflexivity.
  destruct (N.eqb_spec c 10); [contradiction|]. reflexivity.
Qed.

(** Inside a line that is not blank the rest of the pattern cannot
    match, whatever follows the line. *)
Lemma match_after_banner_in_line q tail :
  10 ∉ q -> trimStart q <> [] -> match_after_banner (q ++ tail) = None.
Proof.
  induction q as [|c q IH]; intros Hnl Hq; [contradiction Hq; reflexivity|].
  apply not_elem_of_cons in Hnl as [Hc Hnl].
  cbn [app match_after_banner]. cbn [trimStart] in Hq.
  destruct (is_white_space c).
  - rewrite (IH Hnl Hq). apply capture_here_not_newline. congruence.
  - apply capture_here_not_newline. congruence.
Qed.

(** After the blank line that follows the banner, a line that is not blank
    is the captured group. *)
Lemma match_after_banner_line q tail :
  10 ∉ q -> trimStart q <> [] ->
  match_after_banner (two_newlines ++ q ++ 10 :: tail) = Some q.
Proof.
  intros Hnl Hq. destruct q as [|c q']; [contradiction Hq; reflexivity|].
  pose proof Hnl as Hnl'. apply not_elem_of_cons in Hnl' as [Hc Hq'].
  change (two_newlines ++ (c :: q') ++ 10 :: tail)
    with (10 :: 10 :: (c :: q') ++ 10 :: tail).
  cbn [match_after_banner]. change (is_white_space 10) with true. cbv iota.
  rewrite (match_after_banner_in_line (c :: q') (10 :: tail) Hnl Hq).
  replace (capture_here (10 :: (c :: q') ++ 10 :: tail)) with (@None jsstring).
  2:{ cbn [app capture_here]. destruct (q' ++ 10 :: tail); cbn [N.eqb andb];
      destruct (N.eqb_spec c 10); try congruence; reflexivity. }
  cbn [app capture_here]. change (10 =? 10) with true. cbn [andb].
  destruct (N.eqb_spec c 10); [congruence|]. cbn [negb].
  rewrite (line_of_line q' tail Hq'). reflexivity.
Qed.

(** The payload comes back out of the message built around it. *)
Lemma banner_match_insight_message p :
  10 ∉ p -> trimStart p <> [] -> banner_match (insight_message p) = Some p.
Proof.
  intros Hnl Hp. unfold insight_message.
  assert (E : match_here (BANNER ++ two_newlines ++ p ++ two_newlines
                          ++ str "(Share this with your group!)") = Some p).
  { unfold match_here. rewrite strip_prefix_app.
    apply (match_after_banner_line p (10 :: str "(Share this with your group!)"));
      assumption. }
  destruct (BANNER ++ two_newlines ++ p ++ two_newlines
            ++ str "(Share this with your group!)") as [|c r] eqn:Es;
    cbn [banner_match]; rewrite E; reflexivity.
Qed.

Lemma capture_here_nonempty r captured : capture_here r = Some captured -> captured <> [].
Proof.
  unfold capture_here. destruct r as [|a [|b [|c r']]]; try discriminate.
  destruct ((a =? 10) && (b =? 10) && negb (c =? 10)); [|discriminate].
  intros [= <-]. discriminate.
Qed.

Lemma match_after_banner_nonempty r captured :
  match_after_banner r = Some captured -> captured <> [].
Proof.
  induction r as [|c r IH]; cbn [match_after_banner].
  - apply capture_here_nonempty.
  - destruct (is_white_space c); [|apply capture_here_nonempty].
    destruct (match_after_banner r) as [cap|].
    + intros [= <-]. apply IH. reflexivity.
    + apply capture_here_nonempty.
Qed.

(** A match never captures the empty string. *)
Lemma banner_match_nonempty s captured :
  banner_match s = Some captured -> captured <> [].
Proof.
  assert (Hhere : forall s, match_here s = Some captured -> captured <> []).
  { intros s'. unfold match_here. destruct (strip_prefix BANNER s'); [|discriminate].
    apply match_after_banner_nonempty. }
  induction s as [|c s IH]; cbn [banner_match].
  - destruct (match_here []) eqn:E; [|discriminate]. intros [= <-]. eapply Hhere, E.
  - destruct (match_here (c :: s)) eqn:E.
    + intros [= <-]. eapply Hhere, E.
    + exact IH.
Qed.

Lemma match_here_contains s : contains BANNER s = false -> match_here s = None.
Proof.
  unfold match_here. destruct s as [|c s]; cbn [contains];
    destruct (strip_prefix BANNER _); [discriminate|reflexivity
                                       |discriminate|reflexivity].
Qed.

(** Without the banner there is no match. *)
Lemma banner_match_without_banner s :
  contains BANNER s = false -> banner_match s = None.
Proof.
  induction s as [|c s IH]; intros H; cbn [banner_match];
    rewrite (match_here_contains _ H); [reflexivity|].
  apply IH. cbn [contains] in H.
  destruct (strip_prefix BANNER (c :: s)); [discriminate|exact H].
Qed.

Lemma trimStart_blank s : trimStart s = [] <-> Forall (fun c => is_white_space c = true) s.
Proof.
  induction s as [|c s IH]; cbn [trimStart].
  - split; [constructor|reflexivity].
  - destruct (is_white_space c) eqn:Hc.
    + rewrite IH. split; [constructor; assumption|]. intros H. inversion H; assumption.
    + split; [discriminate|]. intros H. inversion H; congruence.
Qed.

Lemma trim_blank s : trim s = [] <-> Forall (fun c => is_white_space c = true) s.
Proof.
  split.
  - unfold trim, trimEnd. intros H.
    apply (f_equal (@rev N)) in H. rewrite rev_involutive in H. cbn [rev] in H.
    apply trimStart_blank in H. apply Forall_rev in H. rewrite rev_involutive in H.
    destruct (trimStart_suffix s) as [pre Hpre].
    destruct (trimStart s) as [|c r] eqn:E; [apply trimStart_blank, E|].
    apply trimStart_head in E. inversion H; congruence.
  - intros H. apply trimStart_blank in H. unfold trim. rewrite H. reflexivity.
Qed.

Lemma contains_banner_blank s :
  Forall (fun c => is_white_space c = true) s -> contains BANNER s = false.
Proof.
  induction 1 as [|c s Hc _ IH]; [reflexivity|].
  cbn [contains]. change BANNER with (42 :: tl BANNER). cbn [strip_prefix].
  destruct (N.eqb_spec 42 c) as [<-|_]; [discriminate Hc|exact IH].
Qed.

(** The pattern on small inputs: the blank line may be preceded by white
    space, the longest run of white space is tried first, the captured
    line is not trimmed, and a banner without a blank line does not
    match. *)
Example banner_match_extra_blank_lines :
  banner_match (BANNER ++ [10; 10; 10; 10] ++ str "X" ++ [10] ++ str "Y")
  = Some (str "X").
Proof. reflexivity. Qed.

Example banner_match_prefers_the_last_blank_line :
  banner_match (BANNER ++ [10; 10; 32; 10; 10] ++ str "X") = Some (str "X").
Proof. reflexivity. Qed.

Example banner_match_keeps_the_line_as_it_is :
  banner_match (str "hello " ++ BANNER ++ [32; 10; 10] ++ str " X y" ++ [13; 10]
                ++ str "Y")
  = Some (str " X y" ++ [13]).
Proof. reflexivity. Qed.

Example banner_match_needs_a_blank_line :
  banner_match (BANNER ++ [10] ++ str "X") = None.
Proof. reflexivity. Qed.

End Unwrap.

Section PeerImport.

Implicit Types (pg : Page) (raw p : jsstring) (L : Z).

Lemma handlePeerImport_hands_on pg raw L p :
  match banner_match raw with Some captured => captured | None => trim raw end = p ->
  p <> [] ->
  handlePeerImport pg raw L = imported pg p L.
Proof.
  intros Hp Hne. unfold handlePeerImport, imported. rewrite Hp.
  apply truthy_true in Hne. rewrite Hne. cbn [negb].
  destruct (importPeerInsight (storage pg) p L). reflexivity.
Qed.

(** X12: the message [exportMyInsights] builds around a payload is
    unwrapped to that payload: for a payload of one line that is not
    blank, [handlePeerImport] on the message imports the payload, alerts
    the message of the import and returns its success flag. *)
Theorem handlePeerImport_unwraps_the_banner pg p L :
  10 ∉ p -> trimStart p <> [] ->
  handlePeerImport pg (insight_message p) L = imported pg p L.
Proof.
  intros Hnl Hp. apply handlePeerImport_hands_on.
  - rewrite banner_match_insight_message by assumption. reflexivity.
  - intros ->. apply Hp. reflexivity.
Qed.

Lemma handlePeerImport_unwraps_the_banner_witness :
  handlePeerImport (page_of group_8B)
    (insight_message (str "8B|3|1700000000000|Well%20done|Ama|M")) 3
  = imported (page_of group_8B) (str "8B|3|1700000000000|Well%20done|Ama|M") 3.
Proof.
  apply (handlePeerImport_unwraps_the_banner (page_of group_8B)
           (str "8B|3|1700000000000|Well%20done|Ama|M") 3).
  - apply (bool_decide_unpack _). vm_compute. exact I.
  - vm_compute. discriminate.
Defined.

(** X13: a pasted text without the banner is trimmed and imported as the
    payload. *)
Theorem handlePeerImport_without_banner pg raw L :
  contains BANNER raw = false -> trim raw <> [] ->
  handlePeerImport pg raw L = imported pg (trim raw) L.
Proof.
  intros Hno Hne. apply handlePeerImport_hands_on; [|exact Hne].
  rewrite banner_match_without_banner by exact Hno. reflexivity.
Qed.

Lemma handlePeerImport_without_banner_witness :
  handlePeerImport (page_of group_8B)
    (str "  8B|3|1700000000000|Well%20done|Ama|M ") 3
  = imported (page_of group_8B)
      (trim (str "  8B|3|1700000000000|Well%20done|Ama|M ")) 3.
Proof.
  apply (handlePeerImport_without_banner (page_of group_8B)
           (str "  8B|3|1700000000000|Well%20done|Ama|M ") 3).
  - reflexivity.
  - vm_compute. discriminate.
Defined.

(** X14: [handlePeerImport] returns [undefined] exactly for a blank text;
    it then alerts the request to paste the full message and leaves the
    store as it is. *)
Theorem handlePeerImport_blank pg raw L :
  (snd (handlePeerImport pg raw L) = None <-> trim raw = [])
  /\ (trim raw = [] ->
      handlePeerImport pg raw L
      = (alert pg (str "Paste the full message received via WhatsApp."), None)).
Proof.
  assert (Hblank : trim raw = [] ->
            handlePeerImport pg raw L
            = (alert pg (str "Paste the full message received via WhatsApp."), None)).
  { intros H. unfold handlePeerImport.
    rewrite banner_match_without_banner
      by (apply contains_banner_blank, trim_blank, H).
    rewrite H. reflexivity. }
  split; [|exact Hblank]. split.
  - unfold handlePeerImport.
    destruct (banner_match raw) as [captured|] eqn:E.
    + apply banner_match_nonempty, truthy_true in E. rewrite E. cbn [negb].
      destruct (importPeerInsight (storage pg) captured L). discriminate.
    + destruct (trim raw) as [|c r]; [reflexivity|]. cbn [truthy negb].
      destruct (importPeerInsight (storage pg) (c :: r) L). discriminate.
  - intros H. rewrite (Hblank H). reflexivity.
Qed.

Lemma handlePeerImport_blank_witness :
  handlePeerImport (page_of group_8B) (str "   ") 3
  = (alert (page_of group_8B)
       (str "Paste the full message received via WhatsApp."), None).
Proof.
  apply (proj2 (handlePeerImport_blank (page_of group_8B) (str "   ") 3)).
  reflexivity.
Defined.

(** X15: every call of [handlePeerImport] raises exactly one alert and
    opens no window; the string slots are never written; the store is
    changed only by a call that returns [true], and then by one entry
    appended to the bucket of (active group, lesson). *)
Theorem handlePeerImport_frame pg raw L :
  (exists m, alerts (fst (handlePeerImport pg raw L)) = alerts pg ++ [m])
  /\ windows (fst (handlePeerImport pg raw L)) = windows pg
  /\ strings (storage (fst (handlePeerImport pg raw L))) = strings (storage pg)
  /\ (snd (handlePeerImport pg raw L) <> Some true ->
      storage (fst (handlePeerImport pg raw L)) = storage pg)
  /\ (snd (handlePeerImport pg raw L) = Some true ->
      exists g e,
        getGroupId (storage pg) = Some g
        /\ storage (fst (handlePeerImport pg raw L))
           = setArray (storage pg) (reflections_key g L)
               (getArray (storage pg) (reflections_key g L) ++ [e])).
Proof.
  unfold handlePeerImport.
  destruct (truthy _); cbn [negb].
  2:{ cbn [fst snd alert alerts windows storage].
      repeat split; eauto; discriminate. }
  set (p := match banner_match raw with Some c => c | None => trim raw end).
  destruct (importPeerInsight_cases (storage pg) p L)
    as [[Hst Hr]|(g & e & Hg & _ & _ & Hi)].
  - destruct (importPeerInsight (storage pg) p L) as [st' r].
    cbn [fst snd] in *. subst st'. rewrite Hr.
    cbn [fst snd alert alerts windows storage].
    repeat split; eauto; discriminate.
  - rewrite Hi. cbn [fst snd alert alerts windows storage success].
    split; [eauto|]. split; [reflexivity|]. split; [reflexivity|].
    split; [intros H; contradiction H; reflexivity|].
    intros _. exists g, e. split; [exact Hg|reflexivity].
Qed.

Lemma handlePeerImport_frame_witness :
  storage (fst (handlePeerImport (page_of group_8B)
                  (str "7A|3|1700000000000|Well%20done|Ama|M") 3))
  = storage (page_of group_8B).
Proof.
  apply (proj1 (proj2 (proj2 (proj2 (handlePeerImport_frame (page_of group_8B)
                  (str "7A|3|1700000000000|Well%20done|Ama|M") 3))))).
  vm_compute. discriminate.
Defined.

End PeerImport.

Section Share.

Implicit Types (pg : Page) (p s e : jsstring) (L now : Z).




(** [encodeURIComponent] throws nothing but a URIError. *)
Lemma encodeURIComponent_throws s err :
  encodeURIComponent s = Throw err -> err = URIError.
Proof.
  induction s as [|c r IH1 IH2] using two_step_ind; cbn [encodeURIComponent];
    [discriminate|].
  destruct (is_unescaped c).
  { destruct (encodeURIComponent r); [discriminate|].
    intros [= <-]. apply IH1. reflexivity. }
  destruct (is_lead_surrogate c).
  { destruct r as [|d r']; [congruence|].
    destruct (is_trail_surrogate d); [|congruence].
    destruct (encodeURIComponent r') eqn:E; [discriminate|].
    intros [= <-]. eapply IH2; [reflexivity|exact E]. }
  destruct (is_trail_surrogate c); [congruence|].
  destruct (encodeURIComponent r); [discriminate|].
  intros [= <-]. apply IH1. reflexivity.
Qed.


Lemma isWellFormed_app s s' :
  isWellFormed s = true -> isWellFormed s' = true -> isWellFormed (s ++ s') = true.
Proof.
  intros Hs Hs'. revert Hs.
  induction s as [|c r IH1 IH2] using two_step_ind; [intros _; exact Hs'|].
  cbn [app isWellFormed]. destruct (is_lead_surrogate c).
  - destruct r as [|d r']; [discriminate|]. cbn [app].
    intros [Hd Hr]%andb_true_iff. rewrite Hd. apply (IH2 d r' eq_refl Hr).
  - intros [H Hr]%andb_true_iff. rewrite H. apply (IH1 Hr).
Qed.



Lemma isWellFormed_insight_message p :
  isWellFormed p = true -> isWellFormed (insight_message p) = true.
Proof.
  intros H. unfold insight_message.
  repeat (apply isWellFormed_app; try exact H; try reflexivity).
Qed.

Lemma exportInsightPayload_truthy st now L m p :
  exportInsightPayload st now L m = Normal (Some p) -> p <> [].
Proof.
  unfold exportInsightPayload.
  destruct (getGroupId st) as [g|]; [|discriminate].
  destruct (getItem st STUDENT_NAME_KEY) as [n|]; [|discriminate].
  destruct (getItem st (draft_key L)) as [r|]; [|discriminate].
  destruct g as [|c g]; [discriminate|]. cbn [truthy negb orb].
  destruct (negb (truthy n) || negb (truthy r)); [discriminate|].
  destruct (encodeURIComponent (trim r)); [|discriminate].
  intros [= <-]. discriminate.
Qed.

Lemma exportInsightPayload_throws st now L m err :
  exportInsightPayload st now L m = Throw err -> err = URIError.
Proof.
  unfold exportInsightPayload.
  destruct (getGroupId st) as [g|]; [|discriminate].
  destruct (getItem st STUDENT_NAME_KEY) as [n|]; [|discriminate].
  destruct (getItem st (draft_key L)) as [r|]; [|discriminate].
  destruct (negb (truthy g) || negb (truthy n) || negb (truthy r));
    [discriminate|].
  destruct (encodeURIComponent (trim r)) eqn:E; [discriminate|].
  intros [= <-]. eapply encodeURIComponent_throws, E.
Qed.

(** X16: when the group, the display name or the draft is missing or
    empty, [exportMyInsights] alerts that a group and a reflection are
    needed, and opens nothing. *)
Theorem exportMyInsights_incomplete pg now L m :
  (getGroupId (storage pg) = None \/ getGroupId (storage pg) = Some []
   \/ getItem (storage pg) STUDENT_NAME_KEY = None
   \/ getItem (storage pg) STUDENT_NAME_KEY = Some []
   \/ getItem (storage pg) (draft_key L) = None
   \/ getItem (storage pg) (draft_key L) = Some []) ->
  exportMyInsights pg now L m
  = Normal (alert pg (str "Join a group and complete your reflection first.")).
Proof.
  intros H. unfold exportMyInsights.
  replace (exportInsightPayload (storage pg) now L m)
    with (@Normal (option jsstring) None); [reflexivity|].
  unfold exportInsightPayload.
  destruct (getGroupId (storage pg)) as [g|]; [|reflexivity].
  destruct (getItem (storage pg) STUDENT_NAME_KEY) as [n|];
    [|reflexivity].
  destruct (getItem (storage pg) (draft_key L)) as [r|];
    [|reflexivity].
  destruct H as [H|[H|[H|[H|[H|H]]]]]; try discriminate;
    injection H as ->; cbn [truthy negb orb]; rewrite ?orb_true_r; reflexivity.
Qed.

Lemma exportMyInsights_incomplete_witness :
  exportMyInsights (page_of kofi_device) 1700000000000 3 true
  = Normal (alert (page_of kofi_device)
              (str "Join a group and complete your reflection first.")).
Proof.
  apply (exportMyInsights_incomplete (page_of kofi_device) 1700000000000 3 true).
  right. right. right. right. left. reflexivity.
Defined.

Lemma shareViaWhatsApp_opens pg msg :
  isWellFormed msg = true ->
  exists enc,
    shareViaWhatsApp pg msg
    = Normal (window_open pg (str "https://wa.me/233257320201?text=" ++ enc))
    /\ decodeURIComponent enc = Normal msg.
Proof.
  intros H. destruct (decodeURIComponent_encodeURIComponent msg H)
    as (enc & He & Hd & _).
  exists enc. split; [|exact Hd]. unfold shareViaWhatsApp. rewrite He. reflexivity.
Qed.

(** X17: when [exportInsightPayload] returns a payload without unpaired
    surrogates, [exportMyInsights] alerts nothing and opens one window, on
    the wa.me address of the fixed number, whose [text] parameter decodes
    to the banner message around the payload. *)
Theorem exportMyInsights_opens_whatsapp pg now L m p :
  exportInsightPayload (storage pg) now L m = Normal (Some p) ->
  isWellFormed p = true ->
  exists enc,
    exportMyInsights pg now L m
    = Normal {| storage := storage pg; alerts := alerts pg;
                windows := windows pg
                           ++ [str "https://wa.me/233257320201?text=" ++ enc] |}
    /\ decodeURIComponent enc
       = Normal (str "*Mini OpenStax " ++ em_dash ++ str " Group Insight*"
                 ++ [10; 10] ++ p ++ [10; 10]
                 ++ str "(Share this with your group!)").
Proof.
  intros Hp Hwf. unfold exportMyInsights. rewrite Hp. cbn [cbind].
  apply exportInsightPayload_truthy, truthy_true in Hp. rewrite Hp. cbn [negb].
  apply shareViaWhatsApp_opens, isWellFormed_insight_message, Hwf.
Qed.

Lemma exportMyInsights_opens_whatsapp_witness :
  exists enc,
    exportMyInsights (page_of ama_device) 1700000000000 3 true
    = Normal {| storage := storage (page_of ama_device);
                alerts := alerts (page_of ama_device);
                windows := windows (page_of ama_device)
                           ++ [str "https://wa.me/233257320201?text=" ++ enc] |}
    /\ decodeURIComponent enc
       = Normal (str "*Mini OpenStax " ++ em_dash ++ str " Group Insight*"
                 ++ [10; 10]
                 ++ str "8B|3|1700000000000|Hello%2C%20it's%20great!|Ama|M"
                 ++ [10; 10] ++ str "(Share this with your group!)").
Proof.
  apply (exportMyInsights_opens_whatsapp (page_of ama_device) 1700000000000 3
           true (str "8B|3|1700000000000|Hello%2C%20it's%20great!|Ama|M")).
  - reflexivity.
  - reflexivity.
Defined.

(** X18: [exportMyInsights] never writes the store; it throws nothing but
    a URIError, and when it returns it has either raised one alert and
    opened nothing, or opened one window and alerted nothing. *)
Theorem exportMyInsights_frame pg now L m :
  match exportMyInsights pg now L m with
  | Throw err => err = URIError
  | Normal pg' =>
      storage pg' = storage pg
      /\ ((exists a, alerts pg' = alerts pg ++ [a]) /\ windows pg' = windows pg
          \/ alerts pg' = alerts pg /\ exists url, windows pg' = windows pg ++ [url])
  end.
Proof.
  unfold exportMyInsights.
  destruct (exportInsightPayload (storage pg) now L m) as [[p|]|err] eqn:E;
    cbn [cbind].
  - destruct (truthy p); cbn [negb].
    + unfold shareViaWhatsApp.
      destruct (encodeURIComponent (insight_message p)) as [enc|err] eqn:Ee;
        cbn [cbind]; [|eapply encodeURIComponent_throws, Ee].
      split; [reflexivity|]. right. split; [reflexivity|]. eauto.
    + split; [reflexivity|]. left. split; [eauto|reflexivity].
  - split; [reflexivity|]. left. split; [eauto|reflexivity].
  - eapply exportInsightPayload_throws, E.
Qed.

End Share.

Section EndToEnd.

Implicit Types (pg : Page) (p s e g t : jsstring) (L now : Z).




End EndToEnd.

(** ** The quiz *)

Section Quiz.

Implicit Types (answers : list js_value) (correctMap : gmap jsstring js_value)
  (items : list AssessmentItem) (item : AssessmentItem) (i : nat).

Lemma evaluate_item_unresolved answers correctMap acc item i :
  key_resolves correctMap item = false ->
  evaluate_item answers correctMap acc item i = Throw TypeError.
Proof.
  unfold key_resolves, evaluate_item. destruct acc as [[n cl] il].
  destruct (find_option (property correctMap (item_id item)) (options item));
    [discriminate|].
  intros _. destruct (strict_eqb _ _); reflexivity.
Qed.

Lemma evaluate_item_resolved answers correctMap n cl il item i :
  key_resolves correctMap item = true ->
  exists n' cl' il',
    evaluate_item answers correctMap (n, cl, il) item i = Normal (n', cl', il')
    /\ (if answered_right answers correctMap i item
        then n' = (n + 1)%Z /\ il' = il
             /\ exists c, cl' = cl ++ [c] /\ correct_id c = item_id item
        else n' = n /\ cl' = cl
             /\ exists w, il' = il ++ [w] /\ incorrect_id w = item_id item).
Proof.
  unfold key_resolves, evaluate_item, answered_right.
  destruct (find_option (property correctMap (item_id item)) (options item))
    as [o|]; [|discriminate].
  intros _. destruct (strict_eqb _ _); cbn [text_of cbind].
  - eexists _, _, _. split; [reflexivity|]. repeat split. eexists. split; reflexivity.
  - eexists _, _, _. split; [reflexivity|]. repeat split. eexists. split; reflexivity.
Qed.

Lemma evaluate_items_unresolved answers correctMap items i acc :
  forallb (key_resolves correctMap) items = false ->
  evaluate_items answers correctMap items i acc = Throw TypeError.
Proof.
  revert i acc. induction items as [|item rest IH]; intros i acc; cbn [forallb];
    [discriminate|].
  cbn [evaluate_items]. destruct (key_resolves correctMap item) eqn:Hk; cbn [andb].
  - intros Hrest. destruct acc as [[n cl] il].
    destruct (evaluate_item_resolved answers correctMap n cl il item i Hk)
      as (n' & cl' & il' & -> & _).
    cbn [cbind]. apply IH, Hrest.
  - intros _. rewrite evaluate_item_unresolved by exact Hk. reflexivity.
Qed.

Lemma evaluate_items_resolved answers correctMap items i n cl il :
  forallb (key_resolves correctMap) items = true ->
  exists n' cl' il',
    evaluate_items answers correctMap items i (n, cl, il) = Normal (n', cl', il')
    /\ n' = (n + Z.of_nat (length (filter_indexed (answered_right answers correctMap)
                                     i items)))%Z
    /\ map correct_id cl'
       = map correct_id cl
         ++ map item_id (filter_indexed (answered_right answers correctMap) i items)
    /\ map incorrect_id il'
       = map incorrect_id il
         ++ map item_id
              (filter_indexed (fun j x => negb (answered_right answers correctMap j x))
                 i items).
Proof.
  revert i n cl il. induction items as [|item rest IH]; intros i n cl il;
    cbn [forallb evaluate_items filter_indexed].
  - intros _. exists n, cl, il. cbn [length map]. rewrite !app_nil_r.
    repeat split. lia.
  - intros [Hk Hrest]%andb_true_iff.
    destruct (evaluate_item_resolved answers correctMap n cl il item i Hk)
      as (n1 & cl1 & il1 & -> & Hstep).
    cbn [cbind].
    destruct (IH (S i) n1 cl1 il1 Hrest) as (n' & cl' & il' & -> & Hn & Hc & Hi).
    exists n', cl', il'. split; [reflexivity|].
    destruct (answered_right answers correctMap i item); cbn [negb length map].
    + destruct Hstep as (-> & -> & c & -> & Hid).
      rewrite Hc, Hi, map_app. cbn [map]. rewrite Hid, <- app_assoc.
      repeat split. lia.
    + destruct Hstep as (-> & -> & w & -> & Hid).
      rewrite Hc, Hi, map_app. cbn [map]. rewrite Hid, <- app_assoc.
      repeat split. exact Hn.
Qed.

Lemma filter_indexed_split {A : Type} (f : nat -> A -> bool) i (l : list A) :
  (length (filter_indexed f i l)
   + length (filter_indexed (fun j x => negb (f j x)) i l) = length l)%nat.
Proof.
  revert i. induction l as [|x l IH]; intros i; cbn [filter_indexed length];
    [reflexivity|].
  specialize (IH (S i)). destruct (f i x); cbn [negb length]; lia.
Qed.

Lemma filter_indexed_all {A : Type} (f : nat -> A -> bool) i (l : list A) :
  (forall j x, l !! j = Some x -> f (i + j)%nat x = true) ->
  filter_indexed f i l = l.
Proof.
  revert i. induction l as [|x l IH]; intros i H; cbn [filter_indexed];
    [reflexivity|].
  pose proof (H 0%nat x eq_refl) as H0. rewrite Nat.add_0_r in H0. rewrite H0.
  f_equal. apply IH. intros j y Hj.
  replace (S i + j)%nat with (i + S j)%nat by lia. apply H. exact Hj.
Qed.

(** What [evaluateQuiz] returns when it returns. *)
Lemma evaluateQuiz_Normal answers correctMap items r :
  evaluateQuiz answers correctMap items = Normal r ->
  forallb (key_resolves correctMap) items = true
  /\ score r
     = Z.of_nat (length (filter_indexed (answered_right answers correctMap)
                           0 items))
  /\ map correct_id (correctList r)
     = map item_id (filter_indexed (answered_right answers correctMap) 0 items)
  /\ map incorrect_id (incorrectList r)
     = map item_id
         (filter_indexed (fun j x => negb (answered_right answers correctMap j x))
            0 items)
  /\ quiz_mastery r = (15 <=? score r)%Z.
Proof.
  unfold evaluateQuiz.
  destruct (forallb (key_resolves correctMap) items) eqn:Hall.
  - destruct (evaluate_items_resolved answers correctMap items 0 0%Z [] [] Hall)
      as (n' & cl' & il' & -> & Hn & Hc & Hi).
    cbn [cbind]. intros [= <-]. cbn [score correctList incorrectList quiz_mastery].
    repeat split; [lia|exact Hc|exact Hi].
  - rewrite evaluate_items_unresolved by exact Hall. discriminate.
Qed.

(** X20: [evaluateQuiz] returns exactly when, for every item, the answer
    the key gives is the id of one of the item's options; otherwise it
    throws a TypeError, whatever the answers are. *)
Theorem evaluateQuiz_returns_iff_key_resolves answers correctMap items :
  (forallb (key_resolves correctMap) items = true ->
   exists r, evaluateQuiz answers correctMap items = Normal r)
  /\ (forallb (key_resolves correctMap) items = false ->
      evaluateQuiz answers correctMap items = Throw TypeError).
Proof.
  split; intros Hall; unfold evaluateQuiz.
  - destruct (evaluate_items_resolved answers correctMap items 0 0%Z [] [] Hall)
      as (n' & cl' & il' & -> & _).
    cbn [cbind]. eauto.
  - rewrite evaluate_items_unresolved by exact Hall. reflexivity.
Qed.

(** X21: the score is the number of items whose answer, at the item's
    index, is strictly equal to the key's answer; it is the length of the
    list of correct items; the two lists together have one entry per
    item; and mastery is a score of 15 or more. *)
Theorem evaluateQuiz_score answers correctMap items r :
  evaluateQuiz answers correctMap items = Normal r ->
  score r
  = Z.of_nat (length (filter_indexed (answered_right answers correctMap) 0 items))
  /\ score r = Z.of_nat (length (correctList r))
  /\ (length (correctList r) + length (incorrectList r) = length items)%nat
  /\ (0 <= score r <= Z.of_nat (length items))%Z
  /\ (quiz_mastery r = true <-> (15 <= score r)%Z).
Proof.
  intros H. destruct (evaluateQuiz_Normal answers correctMap items r H)
    as (_ & Hs & Hc & Hi & Hm).
  apply (f_equal (@length js_value)) in Hc, Hi. rewrite !length_map in Hc, Hi.
  pose proof (filter_indexed_split (answered_right answers correctMap) 0 items).
  rewrite Hm, Z.leb_le. repeat split; try lia.
Qed.

(** X22: the correct list holds the ids of the items answered as the key
    says, and the incorrect list the ids of the other items, both in the
    order of the items: every item is in one list and not in the other. *)
Theorem evaluateQuiz_lists answers correctMap items r :
  evaluateQuiz answers correctMap items = Normal r ->
  map correct_id (correctList r)
  = map item_id (filter_indexed (answered_right answers correctMap) 0 items)
  /\ map incorrect_id (incorrectList r)
     = map item_id
         (filter_indexed (fun j x => negb (answered_right answers correctMap j x))
            0 items).
Proof.
  intros H. destruct (evaluateQuiz_Normal answers correctMap items r H)
    as (_ & _ & Hc & Hi & _).
  split; assumption.
Qed.

(** X23: a quiz of fewer than 15 items is never mastered; a quiz answered
    as the key says throughout scores the number of its items, has an
    empty incorrect list, and is mastered exactly when it has 15 items or
    more. *)
Theorem evaluateQuiz_mastery_bounds answers correctMap items r :
  evaluateQuiz answers correctMap items = Normal r ->
  ((length items < 15)%nat -> quiz_mastery r = false)
  /\ ((forall j item, items !! j = Some item ->
                      answered_right answers correctMap j item = true) ->
      score r = Z.of_nat (length items)
      /\ incorrectList r = []
      /\ quiz_mastery r = bool_decide (15 <= length items)%nat).
Proof.
  intros H. destruct (evaluateQuiz_Normal answers correctMap items r H)
    as (_ & Hs & Hc & Hi & Hm).
  pose proof (filter_indexed_split (answered_right answers correctMap) 0 items)
    as Hsplit.
  split.
  - intros Hlen. rewrite Hm. apply Z.leb_gt. lia.
  - intros Hall.
    assert (E : filter_indexed (answered_right answers correctMap) 0 items = items)
      by (apply filter_indexed_all; exact Hall).
    rewrite E in Hs, Hsplit. split; [exact Hs|]. split.
    + apply (f_equal (@length js_value)) in Hi. rewrite !length_map in Hi.
      destruct (incorrectList r); [reflexivity|]. cbn [length] in Hi. lia.
    + rewrite Hm, Hs. destruct (Z.leb_spec 15 (Z.of_nat (length items)));
        symmetry; [apply bool_decide_eq_true_2|apply bool_decide_eq_false_2]; lia.
Qed.

Lemma evaluateQuiz_returns_iff_key_resolves_witness :
  (exists r, evaluateQuiz sample_answers sample_key sample_items = Normal r)
  /\ evaluateQuiz sample_answers ∅ sample_items = Throw TypeError.
Proof.
  split.
  - apply (proj1 (evaluateQuiz_returns_iff_key_resolves sample_answers sample_key
                    sample_items)).
    reflexivity.
  - apply (proj2 (evaluateQuiz_returns_iff_key_resolves sample_answers ∅
                    sample_items)).
    reflexivity.
Defined.

Lemma evaluateQuiz_score_witness :
  score sample_results
  = Z.of_nat (length (filter_indexed (answered_right sample_answers sample_key)
                        0 sample_items))
  /\ score sample_results = Z.of_nat (length (correctList sample_results))
  /\ (length (correctList sample_results) + length (incorrectList sample_results)
      = length sample_items)%nat
  /\ (0 <= score sample_results <= Z.of_nat (length sample_items))%Z
  /\ (quiz_mastery sample_results = true <-> (15 <= score sample_results)%Z).
Proof.
  apply (evaluateQuiz_score sample_answers sample_key sample_items sample_results).
  reflexivity.
Defined.

Lemma evaluateQuiz_lists_witness :
  map correct_id (correctList sample_results)
  = map item_id (filter_indexed (answered_right sample_answers sample_key)
                   0 sample_items)
  /\ map incorrect_id (incorrectList sample_results)
     = map item_id
         (filter_indexed
            (fun j x => negb (answered_right sample_answers sample_key j x))
            0 sample_items).
Proof.
  apply (evaluateQuiz_lists sample_answers sample_key sample_items sample_results).
  reflexivity.
Defined.

Lemma evaluateQuiz_mastery_bounds_witness :
  quiz_mastery sample_results = false.
Proof.
  apply (proj1 (evaluateQuiz_mastery_bounds sample_answers sample_key sample_items
                  sample_results eq_refl)).
  vm_compute. lia.
Defined.

End Quiz.

(** ** The quiz report and the export button *)

Section Report.

Implicit Types (st : Storage) (L now : Z) (results : QuizResults).

Lemma mastery_key_inj L L' : mastery_key L = mastery_key L' -> L = L'.
Proof.
  unfold mastery_key. intros H%app_inv_head. apply number_to_string_inj, H.
Qed.

(** The three slots of the report are apart from each other and from the
    slots of the group store. *)
Lemma mastery_key_apart L :
  (forall L', mastery_key L <> quiz_attempts_key L')
  /\ (forall L' ts, mastery_key L <> saved_report_key L' ts)
  /\ mastery_key L <> GROUP_KEY
  /\ mastery_key L <> STUDENT_NAME_KEY
  /\ (forall L', mastery_key L <> draft_key L').
Proof.
  unfold mastery_key, quiz_attempts_key, saved_report_key, draft_key.
  repeat split; intros; intros H; vm_compute in H; discriminate H.
Qed.

Lemma quiz_attempts_key_apart L :
  (forall L' ts, quiz_attempts_key L <> saved_report_key L' ts)
  /\ quiz_attempts_key L <> GROUP_KEY
  /\ quiz_attempts_key L <> STUDENT_NAME_KEY
  /\ (forall L', quiz_attempts_key L <> draft_key L').
Proof.
  unfold mastery_key, quiz_attempts_key, saved_report_key, draft_key.
  repeat split; intros; intros H; vm_compute in H; discriminate H.
Qed.

Lemma saved_report_key_apart L ts :
  saved_report_key L ts <> GROUP_KEY
  /\ saved_report_key L ts <> STUDENT_NAME_KEY
  /\ (forall L', saved_report_key L ts <> draft_key L').
Proof.
  unfold mastery_key, quiz_attempts_key, saved_report_key, draft_key.
  repeat split; intros; intros H; vm_compute in H; discriminate H.
Qed.

(** The store after [generateQuizReport]: three slots written in turn. *)
Lemma generateQuizReport_store percent st now L results time attempts reflection :
  fst (generateQuizReport percent st now L results time attempts reflection)
  = setItem
      (setItem
         (setItem st (mastery_key L)
            (if quiz_mastery results then str "1" else str "0"))
         (quiz_attempts_key L) (number_to_string attempts))
      (saved_report_key L now)
      (snd (generateQuizReport percent st now L results time attempts reflection)).
Proof. reflexivity. Qed.

(** What [generateQuizReport] writes and what it leaves. *)
Lemma generateQuizReport_effect percent st now L results time attempts reflection :
  let st' := fst (generateQuizReport percent st now L results time attempts
                    reflection) in
  let report := snd (generateQuizReport percent st now L results time attempts
                       reflection) in
  getItem st' (mastery_key L)
  = Some (if quiz_mastery results then str "1" else str "0")
  /\ getItem st' (quiz_attempts_key L) = Some (number_to_string attempts)
  /\ getItem st' (saved_report_key L now) = Some report
  /\ getGroupId st' = getGroupId st
  /\ getItem st' STUDENT_NAME_KEY = getItem st STUDENT_NAME_KEY
  /\ (forall L', getItem st' (draft_key L') = getItem st (draft_key L'))
  /\ (forall L', L' <> L -> getItem st' (mastery_key L') = getItem st (mastery_key L'))
  /\ arrays st' = arrays st.
Proof.
  intros st' report. subst st' report. rewrite generateQuizReport_store.
  set (report := snd (generateQuizReport _ _ _ _ _ _ _ _)).
  destruct (mastery_key_apart L) as (Hma & Hms & Hmg & Hmn & Hmd).
  destruct (quiz_attempts_key_apart L) as (Has & Hag & Han & Had).
  destruct (saved_report_key_apart L now) as (Hsg & Hsn & Hsd).
  assert (Hother : forall key,
            key <> mastery_key L -> key <> quiz_attempts_key L ->
            key <> saved_report_key L now ->
            getItem (setItem (setItem (setItem st (mastery_key L)
                       (if quiz_mastery results then str "1" else str "0"))
                       (quiz_attempts_key L) (number_to_string attempts))
                       (saved_report_key L now) report) key
            = getItem st key).
  { intros key H1 H2 H3. rewrite !getItem_setItem_ne by congruence. reflexivity. }
  split.
  { rewrite !getItem_setItem_ne by (intros E; symmetry in E; revert E;
                                    first [apply Hms|apply Hma]).
    apply getItem_setItem_eq. }
  split.
  { rewrite getItem_setItem_ne by (intros E; symmetry in E; revert E; apply Has).
    apply getItem_setItem_eq. }
  split; [apply getItem_setItem_eq|].
  split; [apply Hother; congruence|].
  split; [apply Hother; congruence|].
  split.
  { intros L'. apply Hother; intros E; symmetry in E; revert E;
      first [apply Hmd|apply Had|apply Hsd]. }
  split; [|reflexivity].
  intros L' HL. destruct (mastery_key_apart L') as (Hma' & Hms' & _).
  apply Hother.
  - intros E%mastery_key_inj. contradiction.
  - apply Hma'.
  - apply Hms'.
Qed.

(** X24: [generateQuizReport] stores ["1"] or ["0"] for the lesson's
    mastery, the attempts as a decimal, and the report it returns under
    the key of the lesson and the clock value; it leaves the group, the
    display name, every draft, the mastery of every other lesson and
    every bucket as they were. *)
Theorem generateQuizReport_slots percent st now L results time attempts reflection :
  let st' := fst (generateQuizReport percent st now L results time attempts
                    reflection) in
  let report := snd (generateQuizReport percent st now L results time attempts
                       reflection) in
  getItem st' (mastery_key L)
  = Some (if quiz_mastery results then str "1" else str "0")
  /\ getItem st' (quiz_attempts_key L) = Some (number_to_string attempts)
  /\ getItem st' (saved_report_key L now) = Some report
  /\ getGroupId st' = getGroupId st
  /\ getItem st' STUDENT_NAME_KEY = getItem st STUDENT_NAME_KEY
  /\ (forall L', getItem st' (draft_key L') = getItem st (draft_key L'))
  /\ (forall L', L' <> L -> getItem st' (mastery_key L') = getItem st (mastery_key L'))
  /\ arrays st' = arrays st.
Proof.
  exact (generateQuizReport_effect percent st now L results time attempts
           reflection).
Qed.

Lemma generateQuizReport_slots_witness :
  getItem (fst (generateQuizReport (fun s => (5 * s)%Z) kofi_device 1700000000000
                  3 {| score := 16; correctList := []; incorrectList := [];
                       quiz_mastery := true |} 240 1 []))
          (mastery_key 4)
  = getItem kofi_device (mastery_key 4).
Proof.
  apply (proj1 (proj2 (proj2 (proj2 (proj2 (proj2 (proj2
           (generateQuizReport_slots (fun s => (5 * s)%Z) kofi_device
              1700000000000 3
              {| score := 16; correctList := []; incorrectList := [];
                 quiz_mastery := true |} 240 1 [])))))))).
  lia.
Defined.

(** X25: from the quiz to the payload.  After the report of a quiz result
    is generated for a lesson, the export button passes the mastery of
    that result on, which for a result of [evaluateQuiz] is whether the
    score is 15 or more; and the payload exported for any mastery flag is
    what it was before the report. *)
Theorem quiz_mastery_reaches_the_export percent pg now now' L results time
  attempts reflection :
  let pg' := {| storage := fst (generateQuizReport percent (storage pg) now L
                                  results time attempts reflection);
                alerts := alerts pg; windows := windows pg |} in
  exportBtn_onclick pg' now' L
  = exportMyInsights pg' now' L (quiz_mastery results)
  /\ (forall m, exportInsightPayload (storage pg') now' L m
                = exportInsightPayload (storage pg) now' L m)
  /\ (forall answers correctMap items,
        evaluateQuiz answers correctMap items = Normal results ->
        quiz_mastery results = (15 <=? score results)%Z).
Proof.
  intros pg'.
  destruct (generateQuizReport_effect percent (storage pg) now L results time
              attempts reflection) as (Hm & _ & _ & Hg & Hn & Hd & _ & _).
  split; [|split].
  - unfold exportBtn_onclick. subst pg'. cbn [storage]. rewrite Hm.
    f_equal. destruct (quiz_mastery results); reflexivity.
  - intros m. subst pg'. cbn [storage]. unfold exportInsightPayload.
    rewrite Hg, Hn, Hd. reflexivity.
  - intros answers correctMap items H.
    apply evaluateQuiz_Normal in H. apply H.
Qed.

Lemma quiz_mastery_reaches_the_export_witness :
  quiz_mastery sample_results = (15 <=? score sample_results)%Z.
Proof.
  apply (proj2 (proj2 (quiz_mastery_reaches_the_export (fun s => (5 * s)%Z)
                         (page_of ama_device) 1700000000000 1700000000999 3
                         sample_results 240 1 []))
           sample_answers sample_key sample_items).
  reflexivity.
Defined.

Example report_of_the_sample_quiz :
  snd (generateQuizReport (fun s => (5 * s)%Z) kofi_device 1700000000000 3
         sample_results 240 2 (str "I liked it"))
  = str "*Mini OpenStax " ++ em_dash ++ str " Lesson 4*" ++ newline
    ++ str "Student: Kofi" ++ newline
    ++ str "Score: 1/20 (5%) " ++ em_dash ++ str " " ++ cross_mark
    ++ str " Needs Review" ++ newline
    ++ str "Time: 240s | Attempts: 2" ++ newline ++ newline
    ++ memo ++ str " Reflection:" ++ newline
    ++ dquote ++ str "I liked it" ++ dquote ++ newline ++ newline
    ++ check_mark ++ str " CORRECT (1):" ++ newline
    ++ str "1. Which word has a short a? " ++ arrow ++ str " cat" ++ newline
    ++ newline
    ++ cross_mark ++ str " INCORRECT (1):" ++ newline
    ++ str "2. Which word has a short o? " ++ arrow
    ++ str " Your answer: cat | Correct: cot" ++ newline ++ newline
    ++ str "Report generated via Mini OpenStax.".
Proof. reflexivity. Qed.

End Report.
